(** * Authentication, edge gating and rate governance of the todo API

    A shallow embedding of the request-authentication and request-governance
    layer ([lib/jwt.js], [middleware.js], [lib/middleware/auth.js],
    [lib/middleware/rateLimit.js], [lib/middleware/logger.js],
    [lib/response.js]) and the properties its specification states.

    Conventions of the embedding:
    - a JavaScript string is a [string] (a sequence of 8-bit code units);
    - a JavaScript integer number is a [Z]; non-integral numbers and [NaN]
      are outside the model;
    - [undefined] and [null] results of lookups are [None];
    - [Date.now()] is an explicit argument, in milliseconds;
    - a [Map] or [Headers] object is a [gmap]; mutation is explicit state
      passing. *)

From Stdlib Require Import ZArith Ascii.
From stdpp Require Import gmap strings pretty.

Local Open Scope Z_scope.

(** ** JavaScript strings and values *)

Module JS.

(** [s.startsWith(p)] *)
Fixpoint startsWith (s p : string) {struct p} : bool :=
  match p with
  | EmptyString => true
  | String a p' =>
      match s with
      | EmptyString => false
      | String b s' => Ascii.eqb b a && startsWith s' p'
      end
  end.

(** [s.substring(n)] for [0 <= n]: the string without its first [n]
    code units. *)
Fixpoint substring_from (n : nat) (s : string) : string :=
  match n, s with
  | O, _ => s
  | S _, EmptyString => EmptyString
  | S n', String _ s' => substring_from n' s'
  end.

(** [s.includes(sub)] *)
Fixpoint includes (s sub : string) : bool :=
  startsWith s sub ||
  match s with
  | EmptyString => false
  | String _ s' => includes s' sub
  end.

(** [s.split(sep)[0]] for a one-character separator: everything before
    the first occurrence of [sep]. *)
Fixpoint split_first (sep : ascii) (s : string) : string :=
  match s with
  | EmptyString => EmptyString
  | String c s' => if Ascii.eqb c sep then EmptyString
                   else String c (split_first sep s')
  end.

(** White space and line terminators of ECMAScript among the 8-bit code
    units: TAB, LF, VT, FF, CR, SP and NBSP. *)
Definition is_white_space (c : ascii) : bool :=
  let n := nat_of_ascii c in
  (Nat.eqb n 9 || Nat.eqb n 10 || Nat.eqb n 11 || Nat.eqb n 12
   || Nat.eqb n 13 || Nat.eqb n 32 || Nat.eqb n 160)%bool.

Fixpoint trimStart (s : string) : string :=
  match s with
  | EmptyString => EmptyString
  | String c s' => if is_white_space c then trimStart s' else s
  end.

Fixpoint trimEnd (s : string) : string :=
  match s with
  | EmptyString => EmptyString
  | String c s' =>
      match trimEnd s' with
      | EmptyString => if is_white_space c then EmptyString
                       else String c EmptyString
      | t => String c t
      end
  end.

(** [s.trim()] *)
Definition trim (s : string) : string := trimEnd (trimStart s).

(** ASCII lower-casing, as the [Headers] class applies to header names. *)
Definition lower_ascii (c : ascii) : ascii :=
  let n := nat_of_ascii c in
  if (Nat.leb 65 n && Nat.leb n 90)%bool then ascii_of_nat (n + 32) else c.

Fixpoint toLowerCase (s : string) : string :=
  match s with
  | EmptyString => EmptyString
  | String c s' => String (lower_ascii c) (toLowerCase s')
  end.

(** [list.join(sep)] on strings. *)
Fixpoint join (sep : string) (l : list string) : string :=
  match l with
  | [] => EmptyString
  | [x] => x
  | x :: rest => x +:+ sep +:+ join sep rest
  end.

(** [n.toString()] of an integer number (decimal; the exponent notation
    JavaScript switches to from [10^21] on is outside the model). *)
Definition toString (n : Z) : string := pretty n.

(** [Math.ceil(a / b)] for integers [a] and [0 < b]. *)
Definition ceil_div (a b : Z) : Z := - ((- a) / b).

(** A string that may be [null], under a truthiness test: [Some s] when
    it is truthy (present and not empty). *)
Definition truthy_string (o : option string) : option string :=
  match o with
  | Some s => if String.eqb s EmptyString then None else Some s
  | None => None
  end.

(** JSON values as they occur in token claims and response details:
    primitives, arrays of primitives and flat objects. *)
Inductive Scalar :=
| SNull
| SBool (b : bool)
| SNum (n : Z)
| SStr (s : string).

Inductive Value :=
| Prim (p : Scalar)
| Arr (items : list Scalar)
| Obj (fields : list (string * Scalar)).

Definition Str (s : string) : Value := Prim (SStr s).
Definition Num (n : Z) : Value := Prim (SNum n).

(** Truthiness of a property that may be absent ([undefined]). *)
Definition truthy (o : option Value) : bool :=
  match o with
  | None => false
  | Some (Prim SNull) => false
  | Some (Prim (SBool b)) => b
  | Some (Prim (SNum n)) => negb (n =? 0)
  | Some (Prim (SStr s)) => negb (String.eqb s EmptyString)
  | Some (Arr _) => true
  | Some (Obj _) => true
  end.

(** [a || b] *)
Definition or_else (a b : option Value) : option Value :=
  if truthy a then a else b.

(** [v === 'lit'] for a string literal. *)
Definition strict_eq_str (o : option Value) (lit : string) : bool :=
  match o with
  | Some (Prim (SStr s)) => String.eqb s lit
  | _ => false
  end.

(** [typeof v === 'number'] *)
Definition as_number (o : option Value) : option Z :=
  match o with
  | Some (Prim (SNum n)) => Some n
  | _ => None
  end.

Definition scalar_to_string (p : Scalar) : string :=
  match p with
  | SNull => "null"
  | SBool true => "true"
  | SBool false => "false"
  | SNum n => toString n
  | SStr s => s
  end.

(** An array element under [Array.prototype.join]: [null] prints as the
    empty string. *)
Definition element_to_string (p : Scalar) : string :=
  match p with
  | SNull => EmptyString
  | _ => scalar_to_string p
  end.

(** [String(v)] *)
Definition String_ (v : Value) : string :=
  match v with
  | Prim p => scalar_to_string p
  | Arr items => join "," (map element_to_string items)
  | Obj _ => "[object Object]"
  end.

(** A JavaScript [Error]: its [name] and [message]. *)
Record Error := mkError { name : string; message : string }.

(** How a call completes. An [async] function never throws
    synchronously: it resolves or rejects. A plain function passed as a
    handler can do all three. *)
Inductive Completion (A : Type) :=
| Normal (a : A)
| Throws (e : Error)
| Rejects (e : Error).
Arguments Normal {A} a.
Arguments Throws {A} e.
Arguments Rejects {A} e.

End JS.

(** ** Requests and responses *)

Module Http.

(** A [Headers] object: names are case-insensitive and stored in lower
    case. *)
Definition Headers_get (h : gmap string string) (name : string)
  : option string := h !! JS.toLowerCase name.

(** HTTP white space, which [Headers] strips from both ends of a value:
    TAB, LF, CR and SP. *)
Definition is_http_whitespace (c : ascii) : bool :=
  let n := nat_of_ascii c in
  (Nat.eqb n 9 || Nat.eqb n 10 || Nat.eqb n 13 || Nat.eqb n 32)%bool.

Fixpoint strip_start (s : string) : string :=
  match s with
  | EmptyString => EmptyString
  | String c s' => if is_http_whitespace c then strip_start s' else s
  end.

Fixpoint strip_end (s : string) : string :=
  match s with
  | EmptyString => EmptyString
  | String c s' =>
      match strip_end s' with
      | EmptyString => if is_http_whitespace c then EmptyString
                       else String c EmptyString
      | t => String c t
      end
  end.

(** NUL, LF and CR, which no header value may hold. *)
Definition forbidden_in_value (c : ascii) : bool :=
  let n := nat_of_ascii c in
  (Nat.eqb n 0 || Nat.eqb n 10 || Nat.eqb n 13)%bool.

Fixpoint valid_value (s : string) : bool :=
  match s with
  | EmptyString => true
  | String c s' => negb (forbidden_in_value c) && valid_value s'
  end.

(** What [headers.set(name, value)] stores for [value]: the value without
    its surrounding white space. [None] stands for the [TypeError] the
    call throws when what is left holds a NUL, LF or CR. (A code unit
    above U+00FF, on which it throws too, is no part of a [string].) *)
Definition header_value (value : string) : option string :=
  let v := strip_end (strip_start value) in
  if valid_value v then Some v else None.

(** [headers.set(name, value)] for a value the object stores as it is
    ([header_value value = Some value]), which the decimal numbers the
    rate governor writes are. *)
Definition Headers_set (h : gmap string string) (name value : string)
  : gmap string string := <[JS.toLowerCase name := value]> h.

(** The identity record selected from the identity store. *)
Record User := mkUser {
  user_id : JS.Value;
  user_name : string;
  user_email : string;
  user_role : string;
  user_createdAt : Z;
  user_updatedAt : Z
}.

Record Request := mkRequest {
  method : string;
  pathname : string;
  headers : gmap string string;
  user : option User   (* [request.user], attached by the gate *)
}.

(** The JSON body of a response: the error envelope of [errorResponse],
    or anything else a handler produced. *)
Inductive Body :=
| ErrorEnvelope (success : bool) (error : string) (code : Z)
                (details : option JS.Value)
| OtherBody (text : string).

Record Response := mkResponse {
  status : Z;
  body : Body;
  response_headers : gmap string string
}.

Definition Handler : Type := Request -> JS.Completion Response.

End Http.

(** ** lib/response.js *)

Module Response.
Import Http.

(** [NextResponse.json(body, { status })] *)
Definition NextResponse_json (b : Body) (st : Z) : Response :=
  {| status := st; body := b;
     response_headers := {[ "content-type" := "application/json" ]} |}.

(** [errorResponse(error, code = 500, details = null)]: [details] is
    added only when truthy. *)
Definition errorResponse (error : string) (code : Z)
    (details : option JS.Value) : Response :=
  NextResponse_json
    (ErrorEnvelope false error code
       (if JS.truthy details then details else None))
    code.

Definition unauthorizedResponse (message : string) : Response :=
  errorResponse message 401 None.

Definition forbiddenResponse (message : string) : Response :=
  errorResponse message 403 None.

Definition tooManyRequestsResponse (message : string)
    (details : option JS.Value) : Response :=
  errorResponse message 429 details.

End Response.

(** ** The [Date] built-in, as far as the rate governor uses it *)

Module Date.

(** Zero-padded decimal rendering of a non-negative integer. *)
Definition pad (width : nat) (n : Z) : string :=
  let s := JS.toString n in
  String.concat EmptyString
    (replicate (width - String.length s)%nat "0") +:+ s.

(** Proleptic Gregorian year, month and day of a day number counted from
    1970-01-01. *)
Definition civil_from_days (days : Z) : Z * Z * Z :=
  let z := days + 719468 in
  let era := z / 146097 in
  let doe := z - era * 146097 in
  let yoe := (doe - doe / 1460 + doe / 36524 - doe / 146096) / 365 in
  let doy := doe - (365 * yoe + yoe / 4 - yoe / 100) in
  let mp := (5 * doy + 2) / 153 in
  let d := doy - (153 * mp + 2) / 5 + 1 in
  let m := if mp <? 10 then mp + 3 else mp - 9 in
  let y := yoe + era * 400 in
  (if m <=? 2 then y + 1 else y, m, d).

Definition year_string (y : Z) : string :=
  if (0 <=? y) && (y <=? 9999) then pad 4 y
  else (if y <? 0 then "-" else "+") +:+ pad 6 (Z.abs y).

(** The largest time value of a valid [Date]. *)
Definition max_time : Z := 8640000000000000.

(** [new Date(t).toISOString()]; [None] stands for the [RangeError] an
    invalid date raises. *)
Definition toISOString (t : Z) : option string :=
  if (- max_time <=? t) && (t <=? max_time) then
    let ms := t mod 86400000 in
    let '(y, m, d) := civil_from_days (t / 86400000) in
    Some (year_string y +:+ "-" +:+ pad 2 m +:+ "-" +:+ pad 2 d +:+ "T"
          +:+ pad 2 (ms / 3600000) +:+ ":"
          +:+ pad 2 (ms / 60000 mod 60) +:+ ":"
          +:+ pad 2 (ms / 1000 mod 60) +:+ "."
          +:+ pad 3 (ms mod 1000) +:+ "Z")
  else None.

Definition RangeError : JS.Error :=
  JS.mkError "RangeError" "Invalid time value".

End Date.

(** ** lib/middleware/rateLimit.js *)

Module RateLimit.
Import Http.

(** A rate window entry, the value type of the [requestCounts] map. *)
Record Entry := mkEntry { count : Z; resetTime : Z }.

(** The result object of [checkRateLimit]. *)
Record Decision := mkDecision {
  allowed : bool;
  remaining : Z;
  decision_resetTime : Z;
  limit : Z
}.

Definition getClientIP (request : Request) : string :=
  let forwarded := Headers_get (headers request) "x-forwarded-for" in
  let realIP := Headers_get (headers request) "x-real-ip" in
  let cloudflareIP := Headers_get (headers request) "cf-connecting-ip" in
  match JS.truthy_string forwarded with
  | Some f => JS.trim (JS.split_first "," f)
  | None =>
      match JS.truthy_string cloudflareIP with
      | Some c => c
      | None =>
          match JS.truthy_string realIP with
          | Some r => r
          | None => "unknown"
          end
      end
  end.

Definition getSecondsUntilReset (now resetTime : Z) : Z :=
  JS.ceil_div (resetTime - now) 1000.

(** The object literal sent as [details] of a 429 response. *)
Definition tooManyDetails (limit : Z) (reset_iso : string)
    (retryAfter : Z) : JS.Value :=
  JS.Obj [ ("limit", JS.SNum limit);
           ("remaining", JS.SNum 0);
           ("resetTime", JS.SStr reset_iso);
           ("retryAfter", JS.SNum retryAfter) ].

(** [return handler(request)] inside an [async] function. *)
Definition async_return {A} (c : JS.Completion A) : JS.Completion A :=
  match c with
  | JS.Throws e => JS.Rejects e
  | _ => c
  end.

Section Governor.
(** Module constants, read from the environment when the module is
    loaded: [RATE_LIMIT_MAX_REQUESTS], [RATE_LIMIT_WINDOW_MS] (parsed)
    and [NODE_ENV]. *)
Variable MAX_REQUESTS : Z.
Variable WINDOW_MS : Z.
Variable NODE_ENV : option string.

Definition development : bool :=
  match NODE_ENV with
  | Some e => String.eqb e "development"
  | None => false
  end.

Definition loopback (ip : string) : bool :=
  String.eqb ip "::1" || String.eqb ip "127.0.0.1".

(** [cleanupExpiredEntries], run at time [now]. *)
Definition cleanupExpiredEntries (now : Z)
    (requestCounts : gmap string Entry) : gmap string Entry :=
  filter (fun kv => ~ (now > resetTime kv.2)) requestCounts.

(** [getRateLimitInfo]: the entry of [ip], created or reset when there
    is none or its window has passed, and the map afterwards. *)
Definition getRateLimitInfo (now : Z) (ip : string)
    (requestCounts : gmap string Entry) : Entry * gmap string Entry :=
  let fresh := {| count := 0; resetTime := now + WINDOW_MS |} in
  match requestCounts !! ip with
  | Some data =>
      if now >? resetTime data then (fresh, <[ip := fresh]> requestCounts)
      else (data, requestCounts)
  | None => (fresh, <[ip := fresh]> requestCounts)
  end.

(** [checkRateLimit]. The object [getRateLimitInfo] returns is the one
    the map holds, so [data.count++] updates the map's entry. *)
Definition checkRateLimit (now : Z) (ip : string)
    (requestCounts : gmap string Entry) : Decision * gmap string Entry :=
  let '(data, store) := getRateLimitInfo now ip requestCounts in
  let allowed := count data <? MAX_REQUESTS in
  let data' := if allowed
               then {| count := count data + 1;
                       resetTime := resetTime data |}
               else data in
  let store' := if allowed then <[ip := data']> store else store in
  ({| allowed := allowed;
      remaining := Z.max 0 (MAX_REQUESTS - count data');
      decision_resetTime := resetTime data';
      limit := MAX_REQUESTS |}, store').

(** [withRateLimit]. [now] is the clock reading of [getRateLimitInfo],
    [now_retry] the later one of [getSecondsUntilReset]. *)
Definition withRateLimit (now now_retry : Z) (request : Request)
    (handler : Handler) (requestCounts : gmap string Entry)
  : JS.Completion Response * gmap string Entry :=
  let ip := getClientIP request in
  if development && loopback ip then
    (async_return (handler request), requestCounts)
  else
    let '(d, store) := checkRateLimit now ip requestCounts in
    if negb (allowed d) then
      let retryAfter := getSecondsUntilReset now_retry
                          (decision_resetTime d) in
      match Date.toISOString (decision_resetTime d) with
      | None => (JS.Rejects Date.RangeError, store)
      | Some iso =>
          (JS.Normal
             (Response.tooManyRequestsResponse
                "Too many requests. Please try again later."
                (Some (tooManyDetails MAX_REQUESTS iso retryAfter))),
           store)
      end
    else
      match handler request with
      | JS.Normal response =>
          let h1 := Headers_set (response_headers response)
                      "X-RateLimit-Limit" (JS.toString (limit d)) in
          let h2 := Headers_set h1
                      "X-RateLimit-Remaining"
                      (JS.toString (remaining d)) in
          let h3 := Headers_set h2
                      "X-RateLimit-Reset"
                      (JS.toString (decision_resetTime d)) in
          (JS.Normal {| status := status response;
                        body := body response;
                        response_headers := h3 |}, store)
      | JS.Throws e | JS.Rejects e => (JS.Rejects e, store)
      end.

End Governor.

(** The limiter returned by [createRateLimit(maxRequests, windowMs)];
    [customRequestCounts] is the map its closure owns. The limiter reads
    [data.count] and [data.resetTime] once more after it has awaited the
    handler. The reset time of an entry object never changes, but its
    count does: [overlapping] is the number of other requests of the same
    key admitted to the same window while the handler was awaited, each
    of which has incremented the count of the object [data] refers to.
    Their own effect on the map is theirs and not part of the result. *)
Definition createRateLimit_overlapped (overlapping : Z)
    (NODE_ENV : option string)
    (maxRequests windowMs : Z) (now now_retry : Z) (request : Request)
    (handler : Handler) (customRequestCounts : gmap string Entry)
  : JS.Completion Response * gmap string Entry :=
  let ip := getClientIP request in
  if development NODE_ENV && loopback ip then
    (async_return (handler request), customRequestCounts)
  else
    let fresh := {| count := 0; resetTime := now + windowMs |} in
    let '(data, store) :=
      match customRequestCounts !! ip with
      | Some data =>
          if now >? resetTime data
          then (fresh, <[ip := fresh]> customRequestCounts)
          else (data, customRequestCounts)
      | None => (fresh, <[ip := fresh]> customRequestCounts)
      end in
    let allowed := count data <? maxRequests in
    if negb allowed then
      let retryAfter := getSecondsUntilReset now_retry (resetTime data) in
      match Date.toISOString (resetTime data) with
      | None => (JS.Rejects Date.RangeError, store)
      | Some iso =>
          (JS.Normal
             (Response.tooManyRequestsResponse
                "Too many requests. Please try again later."
                (Some (tooManyDetails maxRequests iso retryAfter))),
           store)
      end
    else
      let data' := {| count := count data + 1;
                      resetTime := resetTime data |} in
      let store' := <[ip := data']> store in
      match handler request with
      | JS.Normal response =>
          let h1 := Headers_set (response_headers response)
                      "X-RateLimit-Limit" (JS.toString maxRequests) in
          let h2 := Headers_set h1
                      "X-RateLimit-Remaining"
                      (JS.toString
                         (maxRequests - (count data' + overlapping))) in
          let h3 := Headers_set h2
                      "X-RateLimit-Reset"
                      (JS.toString (resetTime data')) in
          (JS.Normal {| status := status response;
                        body := body response;
                        response_headers := h3 |}, store')
      | JS.Throws e | JS.Rejects e => (JS.Rejects e, store')
      end.

(** The limiter on a request during whose handler no other request of
    the key is admitted. *)
Definition createRateLimit (NODE_ENV : option string)
    (maxRequests windowMs : Z) (now now_retry : Z) (request : Request)
    (handler : Handler) (customRequestCounts : gmap string Entry)
  : JS.Completion Response * gmap string Entry :=
  createRateLimit_overlapped 0 NODE_ENV maxRequests windowMs now now_retry
    request handler customRequestCounts.

End RateLimit.

(** ** lib/middleware/logger.js *)

Module Logger.
Import Http.

Definition getClientIP (request : Request) : string :=
  let forwarded := Headers_get (headers request) "x-forwarded-for" in
  let realIP := Headers_get (headers request) "x-real-ip" in
  let cloudflareIP := Headers_get (headers request) "cf-connecting-ip" in
  match JS.truthy_string forwarded with
  | Some f => JS.trim (JS.split_first "," f)
  | None =>
      match JS.truthy_string cloudflareIP with
      | Some c => c
      | None =>
          match JS.truthy_string realIP with
          | Some r => r
          | None => "unknown"
          end
      end
  end.

End Logger.

(** ** Signed tokens and the two verification libraries *)

Module Tokens.

(** The claim set of a token: the object its payload segment encodes. *)
Abbreviation Claims := (gmap string JS.Value).

Global Instance Scalar_eq_dec : EqDecision JS.Scalar.
Proof. solve_decision. Defined.

Global Instance Value_eq_dec : EqDecision JS.Value.
Proof. solve_decision. Defined.

(** The signature segment, symbolically: the HMAC of a claim set under a
    key, or bytes that are no HMAC of anything. Distinct keys or claim
    sets give distinct HMACs (collisions are outside the model). *)
Inductive Signature :=
| Hmac (key : string) (signed : Claims)
| Junk (bytes : string).

Global Instance Signature_eq_dec : EqDecision Signature.
Proof. solve_decision. Defined.

(** A well-formed compact JWS with an HMAC algorithm and a claim set as
    payload, decoded. *)
Record Jws := mkJws { payload : Claims; signature : Signature }.

(** The compact serialisation (base64url segments joined by dots), which
    both libraries implement. [serialize] writes a token as [jwt.sign]
    does, with the protected header [{ alg: 'HS256', typ: 'JWT' }];
    [parse] gives [None] for a string that is no well-formed token. Such
    a string is refused by both libraries, with an error that depends on
    what is wrong with it: [jwt_verify_error token secret] is what
    [jwt.verify] throws (a [JsonWebTokenError] as a rule, but the
    [SyntaxError] of [JSON.parse] for a payload segment that is no JSON,
    or a [TypeError] for the payload [null]), [jwtVerify_error token
    secret] what [jwtVerify] rejects with. *)
Class Codec := {
  parse : string -> option Jws;
  serialize : Jws -> string;
  jwt_verify_error : string -> string -> JS.Error;
  jwtVerify_error : string -> string -> JS.Error
}.

Definition codec_sound (c : Codec) : Prop :=
  forall j, parse (serialize j) = Some j.

Definition signature_valid (secret : string) (j : Jws) : bool :=
  bool_decide (signature j = Hmac secret (payload j)).

(** [Math.floor(Date.now() / 1000)] *)
Definition epoch (now : Z) : Z := now / 1000.

Definition guard (ok : bool) (e : JS.Error) : JS.Completion unit :=
  if ok then JS.Normal tt else JS.Throws e.

Definition bind {A B} (c : JS.Completion A) (k : A -> JS.Completion B)
  : JS.Completion B :=
  match c with
  | JS.Normal a => k a
  | JS.Throws e => JS.Throws e
  | JS.Rejects e => JS.Rejects e
  end.

Declare Scope completion_scope.
Delimit Scope completion_scope with completion.
Notation "c1 ';;' c2" := (bind c1 (fun _ => c2))
  (at level 100, c2 at level 200, right associativity) : completion_scope.

(** *** jsonwebtoken *)

Definition JsonWebTokenError (m : string) : JS.Error :=
  JS.mkError "JsonWebTokenError" m.
Definition NotBeforeError (m : string) : JS.Error :=
  JS.mkError "NotBeforeError" m.
Definition TokenExpiredError (m : string) : JS.Error :=
  JS.mkError "TokenExpiredError" m.

(** Does the [aud] claim contain [audience]? The claim is a string or an
    array. *)
Definition audience_matches (aud : option JS.Value) (audience : string)
  : bool :=
  match aud with
  | Some (JS.Arr items) =>
      existsb (fun t => bool_decide (t = JS.SStr audience)) items
  | _ => JS.strict_eq_str aud audience
  end.

(** [jwt.verify(token, secret, { issuer, audience })] at clock reading
    [now], with the library's defaults otherwise. *)
Definition jwt_verify `{Codec} (now : Z) (token secret : string)
    (issuer audience : string) : JS.Completion Claims :=
  match parse token with
  | None => JS.Throws (jwt_verify_error token secret)
  | Some j =>
      let p := payload j in
      let clockTimestamp := epoch now in
      (guard (signature_valid secret j)
         (JsonWebTokenError "invalid signature") ;;
       match p !! "nbf" with
       | None => JS.Normal tt
       | Some v =>
           match JS.as_number (Some v) with
           | None => JS.Throws (JsonWebTokenError "invalid nbf value")
           | Some nbf =>
               guard (negb (nbf >? clockTimestamp))
                 (NotBeforeError "jwt not active")
           end
       end ;;
       match p !! "exp" with
       | None => JS.Normal tt
       | Some v =>
           match JS.as_number (Some v) with
           | None => JS.Throws (JsonWebTokenError "invalid exp value")
           | Some exp =>
               guard (negb (clockTimestamp >=? exp))
                 (TokenExpiredError "jwt expired")
           end
       end ;;
       guard (audience_matches (p !! "aud") audience)
         (JsonWebTokenError
            ("jwt audience invalid. expected: " +:+ audience)) ;;
       guard (JS.strict_eq_str (p !! "iss") issuer)
         (JsonWebTokenError
            ("jwt issuer invalid. expected: " +:+ issuer)) ;;
       JS.Normal p)%completion
  end.

(** [jwt.sign(payload, secret, { expiresIn, issuer, audience })] at clock
    reading [now]; [expiresIn] is the time span in seconds. *)
Definition jwt_sign `{Codec} (now : Z) (p : Claims) (secret : string)
    (expiresIn : Z) (issuer audience : string) : string :=
  let iat := epoch now in
  let claims :=
    <["iss" := JS.Str issuer]>
      (<["aud" := JS.Str audience]>
         (<["exp" := JS.Num (iat + expiresIn)]>
            (<["iat" := JS.Num iat]> p))) in
  serialize {| payload := claims; signature := Hmac secret claims |}.

(** [jwt.decode(token)] *)
Definition jwt_decode `{Codec} (token : string) : option Claims :=
  payload <$> parse token.

(** *** jose *)

Definition JWSSignatureVerificationFailed : JS.Error :=
  JS.mkError "JWSSignatureVerificationFailed"
    "signature verification failed".
Definition JWTClaimValidationFailed (m : string) : JS.Error :=
  JS.mkError "JWTClaimValidationFailed" m.
(** The name of a claim in double quotes, as the messages print it. *)
Definition quoted (claim : string) : string :=
  let q := String (ascii_of_nat 34) EmptyString in q +:+ claim +:+ q.

Definition JWTExpired : JS.Error :=
  JS.mkError "JWTExpired" (quoted "exp" +:+ " claim timestamp check failed").

(** [jwtVerify(token, secret)] without options, at clock reading [now]
    and for a key that is not empty: the payload of the resolved result,
    or the rejection. What the library requires of the protected header
    beyond the algorithm (no critical parameter it does not support) and
    of the encoding of the segments holds of every token [serialize]
    writes and is not represented for others: on those the definition
    may accept where the library rejects, never the reverse. *)
Definition jwtVerify `{Codec} (now : Z) (token secret : string)
  : JS.Completion Claims :=
  match parse token with
  | None => JS.Rejects (jwtVerify_error token secret)
  | Some j =>
      let p := payload j in
      let now_s := epoch now in
      if negb (signature_valid secret j)
      then JS.Rejects JWSSignatureVerificationFailed
      else
        match p !! "iat", JS.as_number (p !! "iat") with
        | Some _, None =>
            JS.Rejects (JWTClaimValidationFailed
                          (quoted "iat" +:+ " claim must be a number"))
        | _, _ =>
            match p !! "nbf", JS.as_number (p !! "nbf") with
            | Some _, None =>
                JS.Rejects (JWTClaimValidationFailed
                              (quoted "nbf" +:+ " claim must be a number"))
            | _, nbf =>
                if match nbf with Some n => n >? now_s | None => false end
                then JS.Rejects
                       (JWTClaimValidationFailed
                          (quoted "nbf" +:+ " claim timestamp check failed"))
                else
                  match p !! "exp", JS.as_number (p !! "exp") with
                  | Some _, None =>
                      JS.Rejects
                        (JWTClaimValidationFailed
                           (quoted "exp" +:+ " claim must be a number"))
                  | _, exp =>
                      if match exp with
                         | Some e => e <=? now_s
                         | None => false
                         end
                      then JS.Rejects JWTExpired
                      else JS.Normal p
                  end
            end
        end
  end.

End Tokens.

(** ** lib/jwt.js: the Token Service *)

Module Jwt.
Import Tokens.

(** [try { body } catch (error) { handler }] around a synchronous body. *)
Definition try_catch {A} (body : JS.Completion A)
    (handler : JS.Error -> JS.Completion A) : JS.Completion A :=
  match body with
  | JS.Normal a => JS.Normal a
  | JS.Throws e | JS.Rejects e => handler e
  end.

(** The object passed to the generators: [{ id, email, role }]. *)
Record Identity := mkIdentity {
  id : JS.Value;
  email : JS.Value;
  role : JS.Value
}.

Definition extractTokenFromHeader (authHeader : option string)
  : option string :=
  match JS.truthy_string authHeader with
  | None => None
  | Some h => if negb (JS.startsWith h "Bearer ") then None
              else Some (JS.substring_from 7 h)
  end.

Section TokenService.
Context `{Codec}.
(** Module constants from the environment. The module refuses to load
    unless both secrets are non-empty; the two expiry settings are
    given as the time spans, in seconds, they denote (900 and 604800
    by default). *)
Variable JWT_SECRET : string.
Variable JWT_REFRESH_SECRET : string.
Variable JWT_ACCESS_EXPIRES_IN : Z.
Variable JWT_REFRESH_EXPIRES_IN : Z.

Definition generateAccessToken (now : Z) (payload : Identity) : string :=
  jwt_sign now
    (<["id" := id payload]>
       (<["email" := email payload]>
          (<["role" := role payload]>
             (<["type" := JS.Str "access"]> ∅))))
    JWT_SECRET JWT_ACCESS_EXPIRES_IN "todo-api" "todo-app".

Definition generateRefreshToken (now : Z) (payload_id : JS.Value)
  : string :=
  jwt_sign now
    (<["id" := payload_id]> (<["type" := JS.Str "refresh"]> ∅))
    JWT_REFRESH_SECRET JWT_REFRESH_EXPIRES_IN "todo-api" "todo-app".

Definition generateTokens (now : Z) (payload : Identity)
  : string * string :=
  (generateAccessToken now payload,
   generateRefreshToken now (id payload)).

Definition verifyAccessToken (now : Z) (token : string)
  : JS.Completion Claims :=
  try_catch
    (bind (jwt_verify now token JWT_SECRET "todo-api" "todo-app")
       (fun decoded =>
          if negb (JS.strict_eq_str (decoded !! "type") "access")
          then JS.Throws (JS.mkError "Error" "Invalid token type")
          else JS.Normal decoded))
    (fun error =>
       if String.eqb (JS.name error) "TokenExpiredError"
       then JS.Throws (JS.mkError "Error" "Token has expired")
       else if String.eqb (JS.name error) "JsonWebTokenError"
       then JS.Throws (JS.mkError "Error" "Invalid token")
       else JS.Throws error).

Definition verifyRefreshToken (now : Z) (token : string)
  : JS.Completion Claims :=
  try_catch
    (bind (jwt_verify now token JWT_REFRESH_SECRET "todo-api" "todo-app")
       (fun decoded =>
          if negb (JS.strict_eq_str (decoded !! "type") "refresh")
          then JS.Throws (JS.mkError "Error" "Invalid token type")
          else JS.Normal decoded))
    (fun error =>
       if String.eqb (JS.name error) "TokenExpiredError"
       then JS.Throws (JS.mkError "Error" "Refresh token has expired")
       else if String.eqb (JS.name error) "JsonWebTokenError"
       then JS.Throws (JS.mkError "Error" "Invalid refresh token")
       else JS.Throws error).

Definition decodeToken (token : string) : option Claims :=
  jwt_decode token.

End TokenService.

End Jwt.

(** ** middleware.js: the Edge Verifier and the Edge Gate *)

Module Edge.
Import Http Tokens.

Inductive RouteType := public | protected | adminOnly.

Global Instance RouteType_eq_dec : EqDecision RouteType.
Proof. solve_decision. Defined.

(** [ROUTE_CONFIG] *)
Definition ROUTE_CONFIG_public : list string :=
  [ "/api/auth/register"; "/api/auth/login"; "/api/auth/refresh" ].
Definition ROUTE_CONFIG_protected : list string :=
  [ "/api/tasks"; "/api/tasks/.*" ].
Definition ROUTE_CONFIG_adminOnly : list string :=
  [ "/api/users"; "/api/users/.*" ].

(** The regular expressions the table needs: a sequence of atoms, each a
    literal character or [.], optionally starred. Every other character
    of a pattern is read as a literal (the table has no other
    metacharacter). *)
Inductive Atom := Lit (c : ascii) | AnyChar.

(** A line terminator among the 8-bit code units: LF or CR. [.] matches
    every character but these. *)
Definition is_line_terminator (c : ascii) : bool :=
  (Nat.eqb (nat_of_ascii c) 10 || Nat.eqb (nat_of_ascii c) 13)%bool.

Definition atom_matches (a : Atom) (c : ascii) : bool :=
  match a with
  | Lit l => Ascii.eqb l c
  | AnyChar => negb (is_line_terminator c)
  end.

Definition atom_of (c : ascii) : Atom :=
  if Ascii.eqb c "." then AnyChar else Lit c.

(** [new RegExp(pattern)] *)
Fixpoint RegExp (pattern : string) : list (Atom * bool) :=
  match pattern with
  | EmptyString => []
  | String c rest =>
      match rest with
      | String "*" rest' => (atom_of c, true) :: RegExp rest'
      | _ => (atom_of c, false) :: RegExp rest
      end
  end.

(** Does the whole of [s] match the atoms ([^...$])? *)
Fixpoint regex_test (re : list (Atom * bool)) (s : string) : bool :=
  match re with
  | [] => String.eqb s EmptyString
  | (a, false) :: re' =>
      match s with
      | EmptyString => false
      | String c s' => atom_matches a c && regex_test re' s'
      end
  | (a, true) :: re' =>
      (fix star (s : string) : bool :=
         regex_test re' s ||
         match s with
         | EmptyString => false
         | String c s' => atom_matches a c && star s'
         end) s
  end.

Definition matchesPattern (path : string) (patterns : list string) : bool :=
  existsb (fun pattern =>
             if JS.includes pattern ".*"
             then regex_test (RegExp pattern) path
             else String.eqb path pattern)
          patterns.

Definition getRouteType (path : string) : RouteType :=
  if matchesPattern path ROUTE_CONFIG_public then public
  else if matchesPattern path ROUTE_CONFIG_adminOnly then adminOnly
  else if matchesPattern path ROUTE_CONFIG_protected then protected
  else public.

(** What a call of the middleware comes to: [NextResponse.next()],
    possibly with rewritten request headers, a JSON response, or, when
    [requestHeaders.set] refuses a value, the [TypeError] its promise
    rejects with. *)
Inductive EdgeResponse :=
| NextResponse_next (request_headers : option (gmap string string))
| NextResponse_json (r : Response)
| Rejects_TypeError.

Definition errorResponse (message : string) (st : Z) : EdgeResponse :=
  NextResponse_json
    (Response.NextResponse_json (ErrorEnvelope false message st None) st).

(** The role the gate derives from the claims:
    [payload.role || payload.roles || 'User']. *)
Definition decoded_role (payload : Claims) : option JS.Value :=
  JS.or_else (JS.or_else (payload !! "role") (payload !! "roles"))
             (Some (JS.Str "User")).

(** [if (v) requestHeaders.set(name, String(v))]: the headers
    afterwards, or [None] when [set] throws. *)
Definition set_if (name : string) (v : option JS.Value)
    (h : gmap string string) : option (gmap string string) :=
  match v with
  | Some x =>
      if JS.truthy v
      then Headers_set h name <$> header_value (JS.String_ x)
      else Some h
  | None => Some h
  end.

Section Gate.
Context `{Codec}.
(** [process.env.JWT_SECRET], which may be unset. *)
Variable JWT_SECRET : option string.

Definition verifyTokenEdge (now : Z) (token : string)
  : JS.Completion Claims :=
  let secret := default EmptyString (JS.truthy_string JWT_SECRET) in
  match jwtVerify now token secret with
  | JS.Normal payload => JS.Normal payload
  | JS.Throws err | JS.Rejects err => JS.Rejects err
  end.

Definition middleware (now : Z) (request : Request) : EdgeResponse :=
  let pathname := pathname request in
  let routeType := getRouteType pathname in
  if bool_decide (routeType = public) then NextResponse_next None
  else
      let authHeader := Headers_get (headers request) "authorization" in
      match JS.truthy_string authHeader with
      | None => errorResponse "No token provided. Please login." 401
      | Some h =>
          if negb (JS.startsWith h "Bearer ")
          then errorResponse "No token provided. Please login." 401
          else
            let token := JS.substring_from 7 h in
            match verifyTokenEdge now token with
            | JS.Throws _ | JS.Rejects _ =>
                errorResponse
                  "Invalid or expired token. Please login again." 401
            | JS.Normal payload =>
                let decoded_id :=
                  JS.or_else (payload !! "id") (payload !! "sub") in
                let decoded_email := payload !! "email" in
                let role := decoded_role payload in
                if bool_decide (routeType = adminOnly)
                   && negb (JS.strict_eq_str role "Admin")
                then errorResponse
                       "Access denied. Admin role required." 403
                else if String.eqb (method request) "DELETE"
                        && JS.startsWith pathname "/api/tasks/"
                        && negb (JS.strict_eq_str role "Admin")
                then errorResponse
                       "Access denied. Only Admin can delete tasks." 403
                else
                  match (set_if "x-user-id" decoded_id (headers request)
                           ≫= set_if "x-user-email" decoded_email)
                          ≫= set_if "x-user-role" role with
                  | Some requestHeaders =>
                      NextResponse_next (Some requestHeaders)
                  | None => Rejects_TypeError
                  end
            end
      end.

End Gate.

End Edge.

(** ** lib/middleware/auth.js: the Authentication Gate *)

Module Auth.
Import Http Tokens.

(** What [prisma.user.findUnique] comes back with: a record, [null], or
    a failure of the store. *)
Inductive Lookup :=
| Found (u : User)
| NotFound
| LookupFails (e : JS.Error).

(** A run of the gate: how it completes, and the requests the wrapped
    handler was called with. *)
Record Run := mkRun {
  completion : JS.Completion Response;
  handler_calls : list Request
}.

Definition attach_user (request : Request) (u : User) : Request :=
  {| method := method request; pathname := pathname request;
     headers := headers request; user := Some u |}.

Section Gate.
Context `{Codec}.
Variable JWT_SECRET : string.
(** The identity store, queried by the [id] claim. *)
Variable findUnique : option JS.Value -> Lookup.

(** [withAuth(request, handler, options)]; [roles] is [options.roles],
    absent when [None]. *)
Definition withAuth (now : Z) (request : Request) (handler : Handler)
    (roles : option (list string)) : Run :=
  let authHeader := Headers_get (headers request) "authorization" in
  match JS.truthy_string (Jwt.extractTokenFromHeader authHeader) with
  | None =>
      mkRun (JS.Normal (Response.unauthorizedResponse
                          "No token provided. Please login.")) []
  | Some token =>
      match Jwt.verifyAccessToken JWT_SECRET now token with
      | JS.Throws error | JS.Rejects error =>
          mkRun (JS.Normal (Response.unauthorizedResponse
                              (JS.message error))) []
      | JS.Normal decoded =>
          match findUnique (decoded !! "id") with
          | LookupFails _ =>
              mkRun (JS.Normal (Response.unauthorizedResponse
                                  "Authentication failed")) []
          | NotFound =>
              mkRun (JS.Normal (Response.unauthorizedResponse
                                  "User not found. Please login again."))
                    []
          | Found u =>
              let denied :=
                match roles with
                | Some rs =>
                    (0 <? Z.of_nat (length rs))
                    && negb (bool_decide (user_role u ∈ rs))
                | None => false
                end in
              if denied then
                mkRun (JS.Normal
                         (Response.forbiddenResponse
                            ("Access denied. Required role: "
                             +:+ JS.join " or " (default [] roles))))
                      []
              else
                let request' := attach_user request u in
                match handler request' with
                | JS.Normal response =>
                    mkRun (JS.Normal response) [request']
                | JS.Throws _ =>
                    mkRun (JS.Normal (Response.unauthorizedResponse
                                        "Authentication failed"))
                          [request']
                | JS.Rejects e => mkRun (JS.Rejects e) [request']
                end
          end
      end
  end.

Definition requireAdmin (now : Z) (request : Request) (handler : Handler)
  : Run := withAuth now request handler (Some ["Admin"]).

Definition requireUser (now : Z) (request : Request) (handler : Handler)
  : Run := withAuth now request handler (Some ["User"; "Admin"]).

End Gate.

End Auth.

(** ** A reference serialisation

    An instance of the serialisation interface: a token is written as the
    binary digits of its code. It shows that the interface is inhabited and
    lets the definitions run on concrete tokens. *)

Module Wire.
Import Tokens.

Definition scalar_to_sum (p : JS.Scalar) : unit + (bool + (Z + string)) :=
  match p with
  | JS.SNull => inl tt
  | JS.SBool b => inr (inl b)
  | JS.SNum n => inr (inr (inl n))
  | JS.SStr s => inr (inr (inr s))
  end.

Definition scalar_of_sum (x : unit + (bool + (Z + string))) : JS.Scalar :=
  match x with
  | inl _ => JS.SNull
  | inr (inl b) => JS.SBool b
  | inr (inr (inl n)) => JS.SNum n
  | inr (inr (inr s)) => JS.SStr s
  end.

Lemma scalar_of_to_sum p : scalar_of_sum (scalar_to_sum p) = p.
Proof. by destruct p. Qed.

Global Instance Scalar_countable : Countable JS.Scalar :=
  inj_countable' scalar_to_sum scalar_of_sum scalar_of_to_sum.

Definition value_to_sum (v : JS.Value)
  : JS.Scalar + (list JS.Scalar + list (string * JS.Scalar)) :=
  match v with
  | JS.Prim p => inl p
  | JS.Arr l => inr (inl l)
  | JS.Obj l => inr (inr l)
  end.

Definition value_of_sum
    (x : JS.Scalar + (list JS.Scalar + list (string * JS.Scalar)))
  : JS.Value :=
  match x with
  | inl p => JS.Prim p
  | inr (inl l) => JS.Arr l
  | inr (inr l) => JS.Obj l
  end.

Lemma value_of_to_sum v : value_of_sum (value_to_sum v) = v.
Proof. by destruct v. Qed.

Global Instance Value_countable : Countable JS.Value :=
  inj_countable' value_to_sum value_of_sum value_of_to_sum.

Definition signature_to_sum (s : Signature) : (string * Claims) + string :=
  match s with
  | Hmac k c => inl (k, c)
  | Junk b => inr b
  end.

Definition signature_of_sum (x : (string * Claims) + string) : Signature :=
  match x with
  | inl (k, c) => Hmac k c
  | inr b => Junk b
  end.

Lemma signature_of_to_sum s : signature_of_sum (signature_to_sum s) = s.
Proof. by destruct s. Qed.

Global Instance Signature_countable : Countable Signature :=
  inj_countable' signature_to_sum signature_of_sum signature_of_to_sum.

Lemma jws_of_to_pair j :
  (fun x : Claims * Signature => mkJws x.1 x.2) (payload j, signature j) = j.
Proof. by destruct j. Qed.

Global Instance Jws_eq_dec : EqDecision Jws.
Proof. solve_decision. Defined.

Global Instance Jws_countable : Countable Jws :=
  inj_countable' (fun j => (payload j, signature j))
                 (fun x => mkJws x.1 x.2) jws_of_to_pair.

Fixpoint pos_to_bits (p : positive) : string :=
  match p with
  | xH => EmptyString
  | xO q => String "0" (pos_to_bits q)
  | xI q => String "1" (pos_to_bits q)
  end.

Fixpoint bits_to_pos (s : string) : option positive :=
  match s with
  | EmptyString => Some xH
  | String c s' =>
      match bits_to_pos s' with
      | Some q => if Ascii.eqb c "0" then Some (xO q)
                  else if Ascii.eqb c "1" then Some (xI q)
                  else None
      | None => None
      end
  end.

Global Instance codec : Codec := {|
  parse s := match bits_to_pos s with
             | Some p => decode p
             | None => None
             end;
  serialize j := pos_to_bits (encode j);
  jwt_verify_error _ _ := JsonWebTokenError "jwt malformed";
  jwtVerify_error _ _ := JS.mkError "JWSInvalid" "Invalid Compact JWS"
|}.

End Wire.

(** ** lib/jwt.js: the expiry helpers *)

Module JwtExpiry.
Import Tokens.

Section Expiry.
Context `{Codec}.
(** The numeric coercion of a string ([None] is [NaN]); it decides an
    [exp] claim that is no number. *)
Variable StringToNumber : string -> option Z.

(** [Number(v)] of a claim value. *)
Definition ToNumber (v : JS.Value) : option Z :=
  match v with
  | JS.Prim JS.SNull => Some 0
  | JS.Prim (JS.SBool b) => Some (if b then 1 else 0)
  | JS.Prim (JS.SNum n) => Some n
  | JS.Prim (JS.SStr s) => StringToNumber s
  | JS.Arr _ => StringToNumber (JS.String_ v)
  | JS.Obj _ => None
  end.

(** [isTokenExpired(token)] at clock reading [now]. A comparison with
    [NaN] is false. *)
Definition isTokenExpired (now : Z) (token : string) : bool :=
  match Jwt.decodeToken token with
  | None => true
  | Some decoded =>
      match decoded !! "exp" with
      | None => true
      | Some exp =>
          if negb (JS.truthy (Some exp)) then true
          else match ToNumber exp with
               | Some n => n * 1000 <? now
               | None => false
               end
      end
  end.

(** A [Date] object: its time value, or [None] for an invalid date. *)
Definition new_Date (value : option Z) : option Z :=
  match value with
  | Some t => if (- Date.max_time <=? t) && (t <=? Date.max_time)
              then Some t else None
  | None => None
  end.

(** [getTokenExpiration(token)]: [None] is [null]. *)
Definition getTokenExpiration (token : string) : option (option Z) :=
  match Jwt.decodeToken token with
  | None => None
  | Some decoded =>
      match decoded !! "exp" with
      | None => None
      | Some exp =>
          if negb (JS.truthy (Some exp)) then None
          else Some (new_Date (match ToNumber exp with
                               | Some n => Some (n * 1000)
                               | None => None
                               end))
      end
  end.

End Expiry.

End JwtExpiry.

(** ** lib/response.js: the failure boundary *)

Module ResponseBoundary.
Import Http.

(** [internalServerErrorResponse(message, error)]; [error] is [null] when
    [None]. *)
Definition internalServerErrorResponse (NODE_ENV : option string)
    (message : string) (error : option JS.Error) : Response :=
  let isProduction :=
    match NODE_ENV with
    | Some e => String.eqb e "production"
    | None => false
    end in
  let errorMessage :=
    if isProduction then message
    else match JS.truthy_string (JS.message <$> error) with
         | Some m => m
         | None => message
         end in
  Response.errorResponse errorMessage 500 None.

(** The function [handleAsync(handler)] returns, applied to a request. *)
Definition handleAsync (NODE_ENV : option string) (handler : Handler)
    (request : Request) : JS.Completion Response :=
  match handler request with
  | JS.Normal response => JS.Normal response
  | JS.Throws error | JS.Rejects error =>
      JS.Normal (internalServerErrorResponse NODE_ENV
                   "An unexpected error occurred" (Some error))
  end.

End ResponseBoundary.

(** ** lib/middleware/auth.js: the remaining helpers *)

Module AuthHelpers.
Import Http Tokens Auth.

(** [a === b] for two values that are not the same object: primitives
    are compared by value, an array or object equals no other. *)
Definition strict_eq (a b : JS.Value) : bool :=
  match a, b with
  | JS.Prim p, JS.Prim q => bool_decide (p = q)
  | _, _ => false
  end.

Definition isOwnerOrAdmin (u : User) (resourceUserId : JS.Value) : bool :=
  String.eqb (user_role u) "Admin" || strict_eq (user_id u) resourceUserId.

Section Helpers.
Context `{Codec}.
Variable JWT_SECRET : string.
Variable findUnique : option JS.Value -> Lookup.

(** [getUserFromRequest(request)]: the identity, or [null]. *)
Definition getUserFromRequest (now : Z) (request : Request) : option User :=
  let authHeader := Headers_get (headers request) "authorization" in
  match JS.truthy_string (Jwt.extractTokenFromHeader authHeader) with
  | None => None
  | Some token =>
      match Jwt.verifyAccessToken JWT_SECRET now token with
      | JS.Throws _ | JS.Rejects _ => None
      | JS.Normal decoded =>
          match findUnique (decoded !! "id") with
          | Found u => Some u
          | NotFound => None
          | LookupFails _ => None
          end
      end
  end.

(** [withOptionalAuth(request, handler)] *)
Definition withOptionalAuth (now : Z) (request : Request)
    (handler : Handler) : Run :=
  let request' :=
    match getUserFromRequest now request with
    | Some u => attach_user request u
    | None => request
    end in
  mkRun (RateLimit.async_return (handler request')) [request'].

(** [checkOwnership(request, handler, getResourceUserId)];
    [getResourceUserId] is given by how its call completes, [None] being
    a [null] or [undefined] result. A request without [request.user]
    fails on [request.user.role]. *)
Definition checkOwnership (request : Request) (handler : Handler)
    (getResourceUserId : JS.Completion (option JS.Value)) : Run :=
  let call_handler :=
    match handler request with
    | JS.Normal response => mkRun (JS.Normal response) [request]
    | JS.Throws _ =>
        mkRun (JS.Normal (Response.forbiddenResponse "Access denied"))
              [request]
    | JS.Rejects e => mkRun (JS.Rejects e) [request]
    end in
  match user request with
  | None => mkRun (JS.Normal (Response.forbiddenResponse "Access denied")) []
  | Some u =>
      if String.eqb (user_role u) "Admin" then call_handler
      else
        match getResourceUserId with
        | JS.Throws _ | JS.Rejects _ =>
            mkRun (JS.Normal (Response.forbiddenResponse "Access denied")) []
        | JS.Normal resourceUserId =>
            match resourceUserId with
            | None =>
                mkRun (JS.Normal (Response.unauthorizedResponse
                                    "Resource not found")) []
            | Some rid =>
                if negb (JS.truthy (Some rid)) then
                  mkRun (JS.Normal (Response.unauthorizedResponse
                                      "Resource not found")) []
                else if negb (strict_eq (user_id u) rid) then
                  mkRun (JS.Normal
                           (Response.forbiddenResponse
                              "You do not have permission to access this resource"))
                        []
                else call_handler
            end
        end
  end.

(** The middleware [createRoleMiddleware(allowedRoles)] returns. *)
Definition createRoleMiddleware (allowedRoles : list string) (now : Z)
    (request : Request) (handler : Handler) : Run :=
  withAuth JWT_SECRET findUnique now request handler (Some allowedRoles).

End Helpers.

End AuthHelpers.

(** ** lib/middleware/logger.js: the logging wrapper *)

Module LoggerMiddleware.
Import Http Tokens.

Section Logging.
Context `{Codec}.

(** [getUserIdFromRequest(request)]: the [id] claim of the bearer token,
    decoded without verification, or [null]. *)
Definition getUserIdFromRequest (request : Request) : option JS.Value :=
  let authHeader := Headers_get (headers request) "authorization" in
  match JS.truthy_string authHeader with
  | None => None
  | Some h =>
      if negb (JS.startsWith h "Bearer ") then None
      else
        let token := JS.substring_from 7 h in
        match Jwt.decodeToken token with
        | None => None
        | Some decoded =>
            if JS.truthy (decoded !! "id") then decoded !! "id" else None
        end
  end.

End Logging.

(** [withLogging(request, handler)], as to what it returns (what it
    prints is not modelled); the handler may update a store of type [S]. *)
Definition withLogging {S : Type} (request : Request)
    (handler : Request -> JS.Completion Response * S)
  : JS.Completion Response * S :=
  let '(completion, store) := handler request in
  (RateLimit.async_return completion, store).

End LoggerMiddleware.

(** ** The route modules: how the middlewares are stacked *)

Module Routes.
Import Http Tokens RateLimit.

Section Stack.
Context `{Codec}.
Variable JWT_SECRET : string.
Variable MAX_REQUESTS : Z.
Variable WINDOW_MS : Z.
Variable NODE_ENV : option string.
Variable findUnique : option JS.Value -> Auth.Lookup.

(** [withLogging(request, req => withRateLimit(req, r => withAuth(r,
    handler, options)))], the body of the exported [GET], [POST], [PUT]
    and [DELETE] of the task and user routes. [now] and [now_retry] are the
    clock readings of the governor, [now_auth] the one of the token
    verification. *)
Definition guarded (roles : option (list string))
    (now now_retry now_auth : Z) (request : Request) (handler : Handler)
    (requestCounts : gmap string Entry)
  : JS.Completion Response * gmap string Entry :=
  LoggerMiddleware.withLogging request
    (fun req =>
       withRateLimit MAX_REQUESTS WINDOW_MS NODE_ENV now now_retry req
         (fun r => Auth.completion
                     (Auth.withAuth JWT_SECRET findUnique now_auth r
                        handler roles))
         requestCounts).

(** app/api/tasks/route.js, [GET] and [POST]; app/api/tasks/[id]/route.js,
    [GET] and [PUT]. *)
Definition tasks_route := guarded None.

(** app/api/users/route.js, [GET]; app/api/tasks/[id]/route.js,
    [DELETE]: through [requireAdmin]. *)
Definition admin_route := guarded (Some ["Admin"]).

End Stack.



End Routes.

(** * Properties *)

(** ** The built-ins on known values *)

Example toISOString_epoch :
  Date.toISOString 0 = Some "1970-01-01T00:00:00.000Z".
Proof. reflexivity. Qed.

Example toISOString_leap_day :
  Date.toISOString 951782400000 = Some "2000-02-29T00:00:00.000Z".
Proof. reflexivity. Qed.

Example toISOString_before_epoch :
  Date.toISOString (-1) = Some "1969-12-31T23:59:59.999Z".
Proof. reflexivity. Qed.

Example toISOString_latest :
  Date.toISOString 8640000000000000 = Some "+275760-09-13T00:00:00.000Z"
  /\ Date.toISOString 8640000000000001 = None.
Proof. split; reflexivity. Qed.

Example trim_entry :
  JS.trim (JS.split_first "," " 10.0.0.1 , 10.0.0.2") = "10.0.0.1".
Proof. reflexivity. Qed.

Example route_types :
  map Edge.getRouteType
    [ "/api/auth/login"; "/api/users"; "/api/users/7"; "/api/tasks";
      "/api/tasks/42"; "/api/health" ]
  = [ Edge.public; Edge.adminOnly; Edge.adminOnly; Edge.protected;
      Edge.protected; Edge.public ].
Proof. reflexivity. Qed.

(** ** The rate governor *)

Section RateGovernor.
Import Http RateLimit.

Implicit Types (store : gmap string Entry) (ip : string).

(** The key has no live window at [now]: no entry, or one whose reset
    time has passed. *)
Definition window_over (now : Z) (ip : string)
    (store : gmap string Entry) : Prop :=
  match store !! ip with
  | Some d => now > resetTime d
  | None => True
  end.

(** Consecutive evaluations of one key at the given clock readings: the
    decisions in order, and the map afterwards. *)
Fixpoint admit_all (MAX_REQUESTS WINDOW_MS : Z) (times : list Z)
    (ip : string) (store : gmap string Entry)
  : list Decision * gmap string Entry :=
  match times with
  | [] => ([], store)
  | now :: rest =>
      let '(d, store1) := checkRateLimit MAX_REQUESTS WINDOW_MS now ip store in
      let '(ds, store2) := admit_all MAX_REQUESTS WINDOW_MS rest ip store1 in
      (d :: ds, store2)
  end.

Lemma checkRateLimit_new MAX W now ip store :
  window_over now ip store ->
  checkRateLimit MAX W now ip store =
    ({| allowed := 0 <? MAX;
        remaining := Z.max 0 (MAX - (if 0 <? MAX then 1 else 0));
        decision_resetTime := now + W;
        limit := MAX |},
     <[ip := {| count := if 0 <? MAX then 1 else 0;
                resetTime := now + W |}]> store).
Proof.
  unfold window_over, checkRateLimit, getRateLimitInfo. intros Hover.
  destruct (store !! ip) as [d|] eqn:Hd.
  - assert ((now >? resetTime d) = true) as -> by lia.
    cbn. destruct (0 <? MAX); cbn; by rewrite ?insert_insert_eq.
  - cbn. destruct (0 <? MAX); cbn; by rewrite ?insert_insert_eq.
Qed.

Lemma checkRateLimit_live MAX W now ip store d :
  store !! ip = Some d ->
  now <= resetTime d ->
  checkRateLimit MAX W now ip store =
    ({| allowed := count d <? MAX;
        remaining := Z.max 0 (MAX - (if count d <? MAX
                                     then count d + 1 else count d));
        decision_resetTime := resetTime d;
        limit := MAX |},
     if count d <? MAX
     then <[ip := {| count := count d + 1; resetTime := resetTime d |}]> store
     else store).
Proof.
  unfold checkRateLimit, getRateLimitInfo. intros -> Hlive.
  assert ((now >? resetTime d) = false) as -> by lia.
  by destruct (count d <? MAX).
Qed.

Lemma checkRateLimit_admits MAX W now ip store c r :
  now <= r -> c < MAX ->
  checkRateLimit MAX W now ip
    (<[ip := {| count := c; resetTime := r |}]> store) =
    ({| allowed := true;
        remaining := Z.max 0 (MAX - (c + 1));
        decision_resetTime := r;
        limit := MAX |},
     <[ip := {| count := c + 1; resetTime := r |}]> store).
Proof.
  intros Hlive Hroom.
  erewrite checkRateLimit_live; [|apply lookup_insert_eq|done].
  cbn [count resetTime].
  assert ((c <? MAX) = true) as -> by lia.
  by rewrite insert_insert_eq.
Qed.

Lemma checkRateLimit_refuses MAX W now ip store c r :
  now <= r -> MAX <= c ->
  checkRateLimit MAX W now ip
    (<[ip := {| count := c; resetTime := r |}]> store) =
    ({| allowed := false;
        remaining := Z.max 0 (MAX - c);
        decision_resetTime := r;
        limit := MAX |},
     <[ip := {| count := c; resetTime := r |}]> store).
Proof.
  intros Hlive Hfull.
  erewrite checkRateLimit_live; [|apply lookup_insert_eq|done].
  cbn [count resetTime].
  by assert ((c <? MAX) = false) as -> by lia.
Qed.

(** C3. With limit 3 and window [W], four consecutive evaluations of a
    key within one window (the first one opening it) are allowed, allowed,
    allowed and refused; a fifth one after the reset time has passed is
    allowed and leaves the key's count at 1. *)
Theorem admit_three_then_refuse_then_reset
    (W t1 t2 t3 t4 t5 : Z) ip store :
  window_over t1 ip store ->
  t2 <= t1 + W -> t3 <= t1 + W -> t4 <= t1 + W ->
  t5 > t1 + W ->
  let '(ds, store4) := admit_all 3 W [t1; t2; t3; t4] ip store in
  let '(d5, store5) := checkRateLimit 3 W t5 ip store4 in
  map allowed ds = [true; true; true; false]
  /\ store4 !! ip = Some {| count := 3; resetTime := t1 + W |}
  /\ allowed d5 = true
  /\ store5 !! ip = Some {| count := 1; resetTime := t5 + W |}.
Proof.
  intros Hover H2 H3 H4 H5. cbn [admit_all].
  rewrite (checkRateLimit_new 3 W t1 ip store Hover).
  change (if 0 <? 3 then 1 else 0) with 1.
  rewrite !checkRateLimit_admits by lia.
  rewrite checkRateLimit_refuses by lia.
  rewrite checkRateLimit_new.
  - rewrite !lookup_insert_eq. by cbn.
  - unfold window_over. rewrite lookup_insert_eq. cbn. lia.
Qed.

Lemma admit_three_then_refuse_then_reset_witness :
  let '(ds, store4) :=
    admit_all 3 60000 [1000; 2000; 3000; 61000] "10.0.0.1" ∅ in
  let '(d5, store5) := checkRateLimit 3 60000 61001 "10.0.0.1" store4 in
  map allowed ds = [true; true; true; false]
  /\ store4 !! "10.0.0.1" = Some {| count := 3; resetTime := 61000 |}
  /\ allowed d5 = true
  /\ store5 !! "10.0.0.1" = Some {| count := 1; resetTime := 121001 |}.
Proof.
  apply (admit_three_then_refuse_then_reset
           60000 1000 2000 3000 61000 61001 "10.0.0.1" ∅).
  - exact I.
  - lia.
  - lia.
  - lia.
  - lia.
Defined.

(** C10. While a key's window has not expired, an evaluation that
    refuses leaves the map, and so the key's count and reset time, as
    they were; the count grows, by one, only when the evaluation
    admits. This holds for [checkRateLimit] and for the limiters
    [createRateLimit] makes. *)
Theorem refusal_leaves_entry_unchanged
    (MAX W now now_retry : Z) NODE_ENV ip store d request handler :
  store !! ip = Some d ->
  now <= resetTime d ->
  (allowed (checkRateLimit MAX W now ip store).1 = false ->
     (checkRateLimit MAX W now ip store).2 = store)
  /\ (allowed (checkRateLimit MAX W now ip store).1 = true ->
        (checkRateLimit MAX W now ip store).2 !! ip =
          Some {| count := count d + 1; resetTime := resetTime d |})
  /\ (getClientIP request = ip ->
      (count d <? MAX) = false ->
        (createRateLimit NODE_ENV MAX W now now_retry request handler
           store).2 = store).
Proof.
  intros Hd Hlive. rewrite (checkRateLimit_live MAX W now ip store d Hd Hlive).
  cbn. split; [|split].
  - by intros ->.
  - intros ->. apply lookup_insert_eq.
  - intros Hip Hfull. unfold createRateLimit, createRateLimit_overlapped.
    rewrite Hip, Hd.
    destruct (development NODE_ENV && loopback ip); [done|].
    assert ((now >? resetTime d) = false) as -> by lia.
    rewrite Hfull. cbn. by destruct (Date.toISOString (resetTime d)).
Qed.

Lemma refusal_leaves_entry_unchanged_witness :
  let store : gmap string Entry :=
    {[ "10.0.0.1" := {| count := 3; resetTime := 61000 |} ]} in
  (checkRateLimit 3 60000 5000 "10.0.0.1" store).2 = store.
Proof.
  intros store.
  apply (refusal_leaves_entry_unchanged 3 60000 5000 5000 None "10.0.0.1"
           store {| count := 3; resetTime := 61000 |}
           (mkRequest "GET" "/api/tasks" ∅ None)
           (fun _ => JS.Rejects (JS.mkError "Error" "unused"))).
  - reflexivity.
  - cbn. lia.
  - reflexivity.
Defined.

(** [Math.ceil] of a division by 1000: the least number of whole seconds
    that covers the milliseconds. *)
Lemma ceil_div_1000 (ms : Z) :
  1000 * (JS.ceil_div ms 1000 - 1) < ms <= 1000 * JS.ceil_div ms 1000.
Proof.
  unfold JS.ceil_div.
  pose proof (Z.div_mod (- ms) 1000 ltac:(lia)) as Hdm.
  pose proof (Z.mod_pos_bound (- ms) 1000 ltac:(lia)) as Hb.
  lia.
Qed.

Lemma lower_limit : JS.toLowerCase "X-RateLimit-Limit" = "x-ratelimit-limit".
Proof. reflexivity. Qed.

Lemma lower_remaining :
  JS.toLowerCase "X-RateLimit-Remaining" = "x-ratelimit-remaining".
Proof. reflexivity. Qed.

Lemma lower_reset : JS.toLowerCase "X-RateLimit-Reset" = "x-ratelimit-reset".
Proof. reflexivity. Qed.

(** C8. A request the governor evaluates (not one the development
    loop-back exemption lets through): when it is admitted and the handler
    returns, the handler's response is returned carrying the headers
    X-RateLimit-Limit, X-RateLimit-Remaining and X-RateLimit-Reset;
    when it is refused, the response has status 429 and its error details
    are the limit, remaining 0, the reset time as an ISO-8601 string and
    retryAfter, the whole seconds until the reset. *)
Theorem rate_limit_headers_and_refusal
    (MAX W now now_retry : Z) NODE_ENV request handler store :
  development NODE_ENV && loopback (getClientIP request) = false ->
  let d := (checkRateLimit MAX W now (getClientIP request) store).1 in
  let result :=
    (withRateLimit MAX W NODE_ENV now now_retry request handler store).1 in
  (allowed d = true ->
   forall response, handler request = JS.Normal response ->
   exists response',
     result = JS.Normal response'
     /\ status response' = status response
     /\ body response' = body response
     /\ Headers_get (response_headers response') "X-RateLimit-Limit"
        = Some (JS.toString MAX)
     /\ Headers_get (response_headers response') "X-RateLimit-Remaining"
        = Some (JS.toString (remaining d))
     /\ Headers_get (response_headers response') "X-RateLimit-Reset"
        = Some (JS.toString (decision_resetTime d)))
  /\ (allowed d = false ->
      - Date.max_time <= decision_resetTime d <= Date.max_time ->
      exists iso retryAfter response,
        Date.toISOString (decision_resetTime d) = Some iso
        /\ 1000 * (retryAfter - 1) < decision_resetTime d - now_retry
           <= 1000 * retryAfter
        /\ result = JS.Normal response
        /\ status response = 429
        /\ body response =
             ErrorEnvelope false
               "Too many requests. Please try again later." 429
               (Some (JS.Obj [ ("limit", JS.SNum MAX);
                               ("remaining", JS.SNum 0);
                               ("resetTime", JS.SStr iso);
                               ("retryAfter", JS.SNum retryAfter) ]))).
Proof.
  intros Hgoverned d result. subst result. unfold withRateLimit.
  rewrite Hgoverned. subst d.
  destruct (checkRateLimit MAX W now (getClientIP request) store)
    as [d store'] eqn:Hcheck.
  assert (limit d = MAX) as Hlimit.
  { unfold checkRateLimit in Hcheck.
    destruct getRateLimitInfo. by injection Hcheck as <- _. }
  cbn [fst]. split.
  - intros -> response ->. cbn [negb fst].
    eexists. split; [reflexivity|]. cbn [status body response_headers].
    unfold Headers_get, Headers_set.
    rewrite lower_limit, lower_remaining, lower_reset, Hlimit.
    repeat split.
    + by rewrite !lookup_insert_ne, lookup_insert_eq by done.
    + by rewrite lookup_insert_ne, lookup_insert_eq by done.
    + by rewrite lookup_insert_eq.
  - intros -> Hrange. cbn [negb].
    unfold Date.toISOString.
    assert (((- Date.max_time <=? decision_resetTime d)
             && (decision_resetTime d <=? Date.max_time)) = true) as ->.
    { apply andb_true_intro. split; lia. }
    destruct (Date.civil_from_days (decision_resetTime d / 86400000))
      as [[y m] dd].
    eexists _, (getSecondsUntilReset now_retry (decision_resetTime d)), _.
    split; [reflexivity|]. split; [apply ceil_div_1000|].
    cbn [fst]. by split.
Qed.

Lemma rate_limit_headers_and_refusal_witness :
  let store : gmap string Entry :=
    {[ "10.0.0.1" := {| count := 3; resetTime := 1700000000000 |} ]} in
  let request :=
    mkRequest "GET" "/api/tasks" {[ "x-forwarded-for" := "10.0.0.1" ]}
              None in
  exists retryAfter response,
    1000 * (retryAfter - 1) < 1700000000000 - 1699999990500
      <= 1000 * retryAfter
    /\ (withRateLimit 3 60000 None 1699999990000 1699999990500 request
          (fun _ => JS.Rejects (JS.mkError "Error" "unused")) store).1
       = JS.Normal response
    /\ status response = 429
    /\ body response =
         ErrorEnvelope false
           "Too many requests. Please try again later." 429
           (Some (JS.Obj [ ("limit", JS.SNum 3);
                           ("remaining", JS.SNum 0);
                           ("resetTime",
                            JS.SStr "2023-11-14T22:13:20.000Z");
                           ("retryAfter", JS.SNum retryAfter) ])).
Proof.
  intros store request.
  destruct (rate_limit_headers_and_refusal 3 60000 1699999990000
              1699999990500 None request
              (fun _ => JS.Rejects (JS.mkError "Error" "unused")) store
              eq_refl) as [_ Hrefused].
  destruct (Hrefused eq_refl) as (iso & retryAfter & response & Hiso & H).
  - vm_compute. split; discriminate.
  - exists retryAfter, response.
    vm_compute in Hiso. injection Hiso as <-. exact H.
Defined.

End RateGovernor.

(** ** Key derivation *)

Section KeyDerivation.
Import Http.

(** A header is absent, or present with an empty value. *)
Definition absent_or_empty (o : option string) : Prop :=
  o = None \/ o = Some EmptyString.

(** A header is present with a non-empty value. *)
Definition present (o : option string) (v : string) : Prop :=
  o = Some v /\ v <> EmptyString.

(** The derivation as the specification words it: the first entry of
    x-forwarded-for, then x-real-ip, then cf-connecting-ip, then
    ['unknown']. *)
Definition specified_key (request : Request) : string :=
  match Headers_get (headers request) "x-forwarded-for" with
  | Some f => JS.split_first "," f
  | None =>
      match Headers_get (headers request) "x-real-ip" with
      | Some r => r
      | None =>
          match Headers_get (headers request) "cf-connecting-ip" with
          | Some c => c
          | None => "unknown"
          end
      end
  end.

Lemma truthy_string_present o v :
  present o v -> JS.truthy_string o = Some v.
Proof.
  intros [-> Hv]. cbn. destruct (String.eqb_spec v EmptyString); done.
Qed.

Lemma truthy_string_absent o :
  absent_or_empty o -> JS.truthy_string o = None.
Proof. by intros [-> | ->]. Qed.

(** [split_first] gives the entry before the first comma, or the whole
    value when it has no comma. *)
Lemma split_first_entry (entry rest : string) :
  JS.includes entry "," = false ->
  JS.split_first "," (entry +:+ "," +:+ rest) = entry
  /\ JS.split_first "," entry = entry.
Proof.
  induction entry as [|c entry IH]; [done|].
  change (String c entry +:+ "," +:+ rest)
    with (String c (entry +:+ "," +:+ rest)).
  cbn. destruct (Ascii.eqb c ","); [by destruct entry|].
  cbn. intros Hinc. destruct (IH Hinc) as [IH1 IH2].
  split; f_equal; [exact IH1 | exact IH2].
Qed.

(** C4, as the code has it. The key of a request is, in this order of
    preference: the first comma-separated entry of x-forwarded-for,
    trimmed of surrounding white space, when that header is present and
    not empty; otherwise cf-connecting-ip when present and not empty;
    otherwise x-real-ip when present and not empty; otherwise
    ['unknown']. The logger derives the client address the same way. *)
Theorem client_key_preference (request : Request) :
  let forwarded := Headers_get (headers request) "x-forwarded-for" in
  let realIP := Headers_get (headers request) "x-real-ip" in
  let cloudflareIP := Headers_get (headers request) "cf-connecting-ip" in
  Logger.getClientIP request = RateLimit.getClientIP request
  /\ (forall f, present forwarded f ->
        RateLimit.getClientIP request = JS.trim (JS.split_first "," f))
  /\ (forall c, absent_or_empty forwarded -> present cloudflareIP c ->
        RateLimit.getClientIP request = c)
  /\ (forall r, absent_or_empty forwarded -> absent_or_empty cloudflareIP ->
        present realIP r ->
        RateLimit.getClientIP request = r)
  /\ (absent_or_empty forwarded -> absent_or_empty cloudflareIP ->
      absent_or_empty realIP ->
        RateLimit.getClientIP request = "unknown").
Proof.
  cbn zeta. unfold RateLimit.getClientIP, Logger.getClientIP.
  split; [reflexivity|]. repeat split.
  - intros f Hf. by rewrite (truthy_string_present _ _ Hf).
  - intros c Hf Hc.
    by rewrite (truthy_string_absent _ Hf), (truthy_string_present _ _ Hc).
  - intros r Hf Hc Hr.
    by rewrite (truthy_string_absent _ Hf), (truthy_string_absent _ Hc),
         (truthy_string_present _ _ Hr).
  - intros Hf Hc Hr.
    by rewrite (truthy_string_absent _ Hf), (truthy_string_absent _ Hc),
         (truthy_string_absent _ Hr).
Qed.

Lemma client_key_preference_witness :
  let request :=
    mkRequest "GET" "/api/tasks"
      {[ "x-real-ip" := "10.0.0.1"; "cf-connecting-ip" := "203.0.113.7" ]}
      None in
  RateLimit.getClientIP request = "203.0.113.7".
Proof.
  intros request.
  destruct (client_key_preference request) as (_ & _ & Hcdn & _).
  apply Hcdn.
  - left. reflexivity.
  - split; [reflexivity | discriminate].
Defined.

(** C4 as stated fails: with x-real-ip and cf-connecting-ip both set and
    no x-forwarded-for, the stated order gives the x-real-ip value, the
    code the cf-connecting-ip value. *)
Lemma client_key_preference_counterexample :
  let request :=
    mkRequest "GET" "/api/tasks"
      {[ "x-real-ip" := "10.0.0.1"; "cf-connecting-ip" := "203.0.113.7" ]}
      None in
  specified_key request = "10.0.0.1"
  /\ RateLimit.getClientIP request = "203.0.113.7"
  /\ Logger.getClientIP request = "203.0.113.7"
  /\ RateLimit.getClientIP request <> specified_key request.
Proof. vm_compute. repeat split; discriminate. Qed.

End KeyDerivation.

(** ** The Edge Gate *)

Section EdgeGate.
Import Http Tokens Edge.
Context `{Codec}.

(** No LF and no CR occurs in the string, as in every URL path name. *)
Fixpoint no_line_terminator (s : string) : bool :=
  match s with
  | EmptyString => true
  | String c s' => negb (is_line_terminator c) && no_line_terminator s'
  end.

Lemma startsWith_append (s p : string) :
  JS.startsWith s p = true ->
  s = p +:+ JS.substring_from (String.length p) s.
Proof.
  revert s. induction p as [|a p IH]; intros s; [done|].
  destruct s as [|b s]; [done|]. cbn.
  destruct (Ascii.eqb_spec b a) as [->|]; [|done].
  cbn. intros Hp.
  change (String a s
          = String a (p +:+ JS.substring_from (String.length p) s)).
  f_equal. by apply IH.
Qed.

Lemma regex_dot_star (s : string) :
  regex_test [(AnyChar, true)] s = no_line_terminator s.
Proof.
  induction s as [|c s IH]; [done|].
  cbn in *. rewrite IH. by destruct s.
Qed.


(** The request carries the bearer credential [token]. *)
Definition bearer (request : Request) (token : string) : Prop :=
  Headers_get (headers request) "authorization"
  = Some ("Bearer " +:+ token).



Lemma bearer_token request token :
  bearer request token ->
  exists h, JS.truthy_string (Headers_get (headers request) "authorization")
            = Some h
            /\ JS.startsWith h "Bearer " = true
            /\ JS.substring_from 7 h = token.
Proof.
  unfold bearer. intros ->. exists ("Bearer " +:+ token).
  repeat split; reflexivity.
Qed.



(** C9. A path that matches none of the configured patterns is
    classified public, and a request to it passes through whether or not
    it carries a token. *)
Theorem unmatched_path_passes_through (JWT_SECRET : option string)
    (now : Z) (request : Request) :
  matchesPattern (pathname request) ROUTE_CONFIG_public = false ->
  matchesPattern (pathname request) ROUTE_CONFIG_adminOnly = false ->
  matchesPattern (pathname request) ROUTE_CONFIG_protected = false ->
  getRouteType (pathname request) = public
  /\ middleware JWT_SECRET now request = NextResponse_next None.
Proof.
  intros Hpub Hadm Hprot.
  assert (getRouteType (pathname request) = public) as Hroute.
  { unfold getRouteType. by rewrite Hpub, Hadm, Hprot. }
  split; [exact Hroute|]. unfold middleware. by rewrite Hroute.
Qed.

End EdgeGate.

(** ** The Token Service and the Edge Verifier *)

Section TokenProperties.
Import Http Tokens Jwt.
Context `{Codec}.
Hypothesis serialisation : codec_sound _.

Lemma signature_valid_hmac (k k' : string) (claims : Claims) :
  signature_valid k' {| payload := claims; signature := Hmac k claims |}
  = bool_decide (k = k').
Proof.
  unfold signature_valid. cbn.
  destruct (decide (k = k')) as [->|Hk].
  - by rewrite !bool_decide_eq_true_2.
  - rewrite !bool_decide_eq_false_2; [done|done|congruence].
Qed.

(** The claim set [jwt.sign] signs. *)
Definition signed_claims (now : Z) (p : Claims) (expiresIn : Z)
    (issuer audience : string) : Claims :=
  <["iss" := JS.Str issuer]>
    (<["aud" := JS.Str audience]>
       (<["exp" := JS.Num (epoch now + expiresIn)]>
          (<["iat" := JS.Num (epoch now)]> p))).

Lemma signed_claims_registered now p ttl issuer audience :
  let claims := signed_claims now p ttl issuer audience in
  claims !! "iss" = Some (JS.Str issuer)
  /\ claims !! "aud" = Some (JS.Str audience)
  /\ claims !! "exp" = Some (JS.Num (epoch now + ttl))
  /\ claims !! "iat" = Some (JS.Num (epoch now)).
Proof. unfold signed_claims. cbn zeta. by simplify_map_eq. Qed.

Lemma signed_claims_other now p ttl issuer audience (key : string) :
  key <> "iss" -> key <> "aud" -> key <> "exp" -> key <> "iat" ->
  signed_claims now p ttl issuer audience !! key = p !! key.
Proof. intros. unfold signed_claims. by simplify_map_eq. Qed.

(** Verifying, with any secret and at any later clock reading, a token
    the library has just signed. *)
Lemma jwt_verify_sign (now now' : Z) (p : Claims) (k k' : string)
    (ttl : Z) (issuer audience : string) :
  p !! "nbf" = None ->
  jwt_verify now' (jwt_sign now p k ttl issuer audience) k' issuer audience
  = if bool_decide (k = k')
    then if epoch now' >=? epoch now + ttl
         then JS.Throws (TokenExpiredError "jwt expired")
         else JS.Normal (signed_claims now p ttl issuer audience)
    else JS.Throws (JsonWebTokenError "invalid signature").
Proof.
  intros Hnbf. unfold jwt_verify, jwt_sign. rewrite serialisation.
  cbn [payload]. rewrite signature_valid_hmac.
  fold (signed_claims now p ttl issuer audience).
  destruct (signed_claims_registered now p ttl issuer audience)
    as (-> & -> & -> & _).
  rewrite signed_claims_other, Hnbf by done.
  destruct (bool_decide (k = k')); [|done].
  cbn [guard bind JS.as_number JS.Num].
  destruct (epoch now' >=? epoch now + ttl); [done|].
  cbn [guard bind negb audience_matches JS.Str JS.strict_eq_str].
  by rewrite !String.eqb_refl.
Qed.

Lemma jwtVerify_sign (now now' : Z) (p : Claims) (k k' : string)
    (ttl : Z) (issuer audience : string) :
  p !! "nbf" = None ->
  jwtVerify now' (jwt_sign now p k ttl issuer audience) k'
  = if bool_decide (k = k')
    then if epoch now + ttl <=? epoch now'
         then JS.Rejects JWTExpired
         else JS.Normal (signed_claims now p ttl issuer audience)
    else JS.Rejects JWSSignatureVerificationFailed.
Proof.
  intros Hnbf. unfold jwtVerify, jwt_sign. rewrite serialisation.
  cbn [payload]. rewrite signature_valid_hmac.
  fold (signed_claims now p ttl issuer audience).
  destruct (signed_claims_registered now p ttl issuer audience)
    as (_ & _ & -> & ->).
  rewrite signed_claims_other, Hnbf by done.
  by destruct (bool_decide (k = k')).
Qed.

Lemma edge_secret (k : string) :
  default EmptyString (JS.truthy_string (Some k)) = k.
Proof. cbn. by destruct (String.eqb_spec k EmptyString). Qed.

Definition access_claims (I : Identity) : Claims :=
  <["id" := id I]>
    (<["email" := email I]>
       (<["role" := role I]> (<["type" := JS.Str "access"]> ∅))).

Definition refresh_claims (uid : JS.Value) : Claims :=
  <["id" := uid]> (<["type" := JS.Str "refresh"]> ∅).

(** Verifying an access token with the Token Service once it has
    expired. *)
Lemma verifyAccessToken_expired (JWT_SECRET : string)
    (expiresIn now now' : Z) (I : Identity) :
  epoch now + expiresIn <= epoch now' ->
  verifyAccessToken JWT_SECRET now'
    (generateAccessToken JWT_SECRET expiresIn now I)
  = JS.Throws (JS.mkError "Error" "Token has expired").
Proof.
  intros Hlate. unfold generateAccessToken, verifyAccessToken.
  fold (access_claims I).
  rewrite jwt_verify_sign by done.
  rewrite bool_decide_eq_true_2 by done.
  by assert ((epoch now' >=? epoch now + expiresIn) = true) as -> by lia.
Qed.

(** Verifying a fresh access token with the Token Service. *)
Lemma verifyAccessToken_generate (JWT_SECRET : string)
    (expiresIn now now' : Z) (I : Identity) :
  epoch now' < epoch now + expiresIn ->
  verifyAccessToken JWT_SECRET now'
    (generateAccessToken JWT_SECRET expiresIn now I)
  = JS.Normal (signed_claims now (access_claims I) expiresIn
                 "todo-api" "todo-app").
Proof.
  intros Hfresh. unfold generateAccessToken, verifyAccessToken.
  fold (access_claims I).
  rewrite jwt_verify_sign by done.
  rewrite bool_decide_eq_true_2 by done.
  assert ((epoch now' >=? epoch now + expiresIn) = false) as -> by lia.
  cbn [bind try_catch]. by rewrite signed_claims_other.
Qed.

(** Verifying a fresh access token as a refresh token. *)
Lemma verifyRefreshToken_access_token
    (JWT_SECRET JWT_REFRESH_SECRET : string) (expiresIn now now' : Z)
    (I : Identity) :
  epoch now' < epoch now + expiresIn ->
  verifyRefreshToken JWT_REFRESH_SECRET now'
    (generateAccessToken JWT_SECRET expiresIn now I)
  = JS.Throws
      (JS.mkError "Error"
         (if bool_decide (JWT_REFRESH_SECRET = JWT_SECRET)
          then "Invalid token type"
          else "Invalid refresh token")).
Proof.
  intros Hfresh. unfold generateAccessToken, verifyRefreshToken.
  fold (access_claims I).
  rewrite jwt_verify_sign by done.
  destruct (decide (JWT_SECRET = JWT_REFRESH_SECRET)) as [->|Hne].
  - rewrite !bool_decide_eq_true_2 by done.
    assert ((epoch now' >=? epoch now + expiresIn) = false) as -> by lia.
    cbn [bind try_catch]. by rewrite signed_claims_other.
  - by rewrite !bool_decide_eq_false_2 by done.
Qed.

(** Verifying a fresh access token with the Edge Verifier. *)
Lemma verifyTokenEdge_generate (JWT_SECRET : string)
    (expiresIn now now' : Z) (I : Identity) :
  epoch now' < epoch now + expiresIn ->
  Edge.verifyTokenEdge (Some JWT_SECRET) now'
    (generateAccessToken JWT_SECRET expiresIn now I)
  = JS.Normal (signed_claims now (access_claims I) expiresIn
                 "todo-api" "todo-app").
Proof.
  intros Hfresh. unfold generateAccessToken, Edge.verifyTokenEdge.
  fold (access_claims I).
  rewrite edge_secret, jwtVerify_sign by done.
  rewrite bool_decide_eq_true_2 by done.
  by assert ((epoch now + expiresIn <=? epoch now') = false) as -> by lia.
Qed.

(** C2, as the code has it. For every identity, an access token verified
    before it expires is accepted by [verifyAccessToken], with the
    identity's id, email and role as claims; [verifyRefreshToken] refuses
    the same token: with ['Invalid token type'] when the refresh secret
    equals the access secret, and with ['Invalid refresh token'] (the
    signature does not verify) when the two secrets differ. *)
Theorem access_token_round_trip
    (JWT_SECRET JWT_REFRESH_SECRET : string) (expiresIn now now' : Z)
    (I : Identity) :
  epoch now' < epoch now + expiresIn ->
  let token := generateAccessToken JWT_SECRET expiresIn now I in
  (exists claims,
      verifyAccessToken JWT_SECRET now' token = JS.Normal claims
      /\ claims !! "id" = Some (id I)
      /\ claims !! "email" = Some (email I)
      /\ claims !! "role" = Some (role I))
  /\ verifyRefreshToken JWT_REFRESH_SECRET now' token
     = JS.Throws
         (JS.mkError "Error"
            (if bool_decide (JWT_REFRESH_SECRET = JWT_SECRET)
             then "Invalid token type"
             else "Invalid refresh token")).
Proof.
  intros Hfresh token. subst token.
  rewrite verifyAccessToken_generate, verifyRefreshToken_access_token
    by done.
  split; [|done].
  eexists. split; [reflexivity|].
  by rewrite !signed_claims_other.
Qed.

(** C1 fails on the code. The Edge Verifier applies no token-kind rule:
    a refresh token signed with the secret the verifiers use (the two
    secrets of a deployment may be equal) is accepted by
    [verifyTokenEdge] and refused by [verifyAccessToken]. *)
Theorem edge_verifier_accepts_refresh_token
    (JWT_SECRET : string) (expiresIn now now' : Z) (uid : JS.Value) :
  epoch now' < epoch now + expiresIn ->
  let token := generateRefreshToken JWT_SECRET expiresIn now uid in
  (exists claims,
      Edge.verifyTokenEdge (Some JWT_SECRET) now' token = JS.Normal claims
      /\ claims !! "type" = Some (JS.Str "refresh"))
  /\ verifyAccessToken JWT_SECRET now' token
     = JS.Throws (JS.mkError "Error" "Invalid token type").
Proof.
  intros Hfresh token. subst token.
  unfold generateRefreshToken, verifyAccessToken, Edge.verifyTokenEdge.
  fold (refresh_claims uid).
  assert (refresh_claims uid !! "nbf" = None) as Hnbf by done.
  rewrite edge_secret, jwtVerify_sign, jwt_verify_sign by done.
  rewrite bool_decide_eq_true_2 by done.
  assert ((epoch now' >=? epoch now + expiresIn) = false) as -> by lia.
  assert ((epoch now + expiresIn <=? epoch now') = false) as -> by lia.
  cbn [bind try_catch]. rewrite !signed_claims_other by done.
  split; [|done].
  eexists. split; [reflexivity|]. by rewrite signed_claims_other.
Qed.

(** Nor does the Edge Verifier apply the issuer and audience rules: a
    token of kind access signed with the shared secret for another
    issuer and audience is accepted by it and refused by
    [verifyAccessToken]. *)
Lemma edge_verifier_ignores_issuer_and_audience
    (JWT_SECRET issuer audience : string) (expiresIn now now' : Z)
    (I : Identity) :
  epoch now' < epoch now + expiresIn ->
  issuer <> "todo-api" \/ audience <> "todo-app" ->
  let token :=
    jwt_sign now (access_claims I) JWT_SECRET expiresIn issuer audience in
  Edge.verifyTokenEdge (Some JWT_SECRET) now' token
  = JS.Normal (signed_claims now (access_claims I) expiresIn
                 issuer audience)
  /\ verifyAccessToken JWT_SECRET now' token
     = JS.Throws (JS.mkError "Error" "Invalid token").
Proof.
  intros Hfresh Hother token. subst token.
  unfold verifyAccessToken, Edge.verifyTokenEdge.
  assert (access_claims I !! "nbf" = None) as Hnbf by done.
  rewrite edge_secret, jwtVerify_sign by done.
  rewrite bool_decide_eq_true_2 by done.
  assert ((epoch now + expiresIn <=? epoch now') = false) as -> by lia.
  split; [done|].
  unfold jwt_verify, jwt_sign. rewrite serialisation.
  cbn [payload]. rewrite signature_valid_hmac.
  rewrite bool_decide_eq_true_2 by done.
  fold (signed_claims now (access_claims I) expiresIn issuer audience).
  destruct (signed_claims_registered now (access_claims I) expiresIn
              issuer audience) as (-> & -> & -> & _).
  rewrite signed_claims_other, Hnbf by done.
  cbn [guard bind JS.as_number JS.Num].
  assert ((epoch now' >=? epoch now + expiresIn) = false) as -> by lia.
  cbn [guard bind negb audience_matches JS.Str JS.strict_eq_str].
  destruct (String.eqb_spec audience "todo-app") as [->|Haud]; [|done].
  destruct (String.eqb_spec issuer "todo-api") as [->|Hiss]; [|done].
  by destruct Hother.
Qed.

End TokenProperties.

(** ** The Authentication Gate *)

Section AuthenticationGate.
Import Http Tokens Auth.
Context `{Codec}.
Variable JWT_SECRET : string.
Variable findUnique : option JS.Value -> Lookup.

(** The authorization header carries no bearer token: it is absent, does
    not start with ['Bearer '], or has nothing after it. *)
Definition no_bearer_token (authHeader : option string) : Prop :=
  authHeader = None
  \/ exists v, authHeader = Some v
               /\ (JS.startsWith v "Bearer " = false \/ v = "Bearer ").

Lemma extract_no_token authHeader :
  no_bearer_token authHeader ->
  JS.truthy_string (Jwt.extractTokenFromHeader authHeader) = None.
Proof.
  unfold Jwt.extractTokenFromHeader.
  intros [-> | (v & -> & [Hv | ->])]; [done| |done].
  cbn [JS.truthy_string].
  destruct (String.eqb v EmptyString); [done|]. by rewrite Hv.
Qed.

Lemma extract_token request token :
  bearer request token -> token <> EmptyString ->
  JS.truthy_string
    (Jwt.extractTokenFromHeader
       (Headers_get (headers request) "authorization")) = Some token.
Proof.
  unfold bearer. intros -> Htoken.
  change (Jwt.extractTokenFromHeader (Some ("Bearer " +:+ token)))
    with (Some token).
  cbn. by destruct (String.eqb_spec token EmptyString).
Qed.

(** The role gate lets the identity through: no role set is given, it
    is empty, or it contains the identity's role. *)
Definition role_allowed (roles : option (list string)) (u : User) : Prop :=
  match roles with
  | None => True
  | Some rs => rs = [] \/ user_role u ∈ rs
  end.

Lemma denied_iff roles u :
  match roles with
  | Some rs => (0 <? Z.of_nat (length rs))
               && negb (bool_decide (user_role u ∈ rs))
  | None => false
  end = false <-> role_allowed roles u.
Proof.
  destruct roles as [rs|]; [|done]. cbn [role_allowed].
  destruct rs as [|r rs]; [by intuition|].
  change (0 <? Z.of_nat (length (r :: rs))) with true.
  cbn [andb]. rewrite negb_false_iff, bool_decide_eq_true.
  split; [by right|by intros [|]].
Qed.

(** What the gate answers once the identity passed the role gate: the
    handler's response, the generic refusal if the handler throws
    synchronously, the handler's rejection otherwise. *)
Definition handled (handler : Handler) (request : Request)
  : JS.Completion Response :=
  match handler request with
  | JS.Normal response => JS.Normal response
  | JS.Throws _ =>
      JS.Normal (Response.errorResponse "Authentication failed" 401 None)
  | JS.Rejects e => JS.Rejects e
  end.

(** C5. The outcomes of the Authentication Gate: no bearer token, 401
    ['No token provided. Please login.']; a token that fails
    verification, 401 with the Token Service's message; a valid token
    whose subject the identity store does not know, 401 ['User not
    found. Please login again.']; a known identity whose role is not in
    the non-empty set of allowed roles, 403 naming the roles; otherwise
    the handler is called, once, with the fetched identity attached to
    the request. In the first four cases the handler is not called. *)
Theorem authentication_gate_outcomes (now : Z) (request : Request)
    (handler : Handler) (roles : option (list string)) :
  let run := withAuth JWT_SECRET findUnique now request handler roles in
  (no_bearer_token (Headers_get (headers request) "authorization") ->
     run = mkRun (JS.Normal (Response.errorResponse
                               "No token provided. Please login." 401 None))
                 [])
  /\ (forall token error,
        bearer request token -> token <> EmptyString ->
        Jwt.verifyAccessToken JWT_SECRET now token = JS.Throws error ->
        run = mkRun (JS.Normal (Response.errorResponse
                                  (JS.message error) 401 None)) [])
  /\ (forall token decoded,
        bearer request token -> token <> EmptyString ->
        Jwt.verifyAccessToken JWT_SECRET now token = JS.Normal decoded ->
        findUnique (decoded !! "id") = NotFound ->
        run = mkRun (JS.Normal (Response.errorResponse
                                  "User not found. Please login again."
                                  401 None)) [])
  /\ (forall token decoded u rs,
        bearer request token -> token <> EmptyString ->
        Jwt.verifyAccessToken JWT_SECRET now token = JS.Normal decoded ->
        findUnique (decoded !! "id") = Found u ->
        roles = Some rs -> rs <> [] -> user_role u ∉ rs ->
        run = mkRun (JS.Normal
                       (Response.errorResponse
                          ("Access denied. Required role: "
                           +:+ JS.join " or " rs) 403 None)) [])
  /\ (forall token decoded u,
        bearer request token -> token <> EmptyString ->
        Jwt.verifyAccessToken JWT_SECRET now token = JS.Normal decoded ->
        findUnique (decoded !! "id") = Found u ->
        role_allowed roles u ->
        run = mkRun (handled handler (attach_user request u))
                    [attach_user request u]
        /\ user (attach_user request u) = Some u).
Proof.
  cbn zeta. unfold withAuth. split; [|split; [|split; [|split]]].
  - intros Hnone. by rewrite (extract_no_token _ Hnone).
  - intros token error Hbearer Htoken Hverify.
    by rewrite (extract_token _ _ Hbearer Htoken), Hverify.
  - intros token decoded Hbearer Htoken Hverify Hfind.
    by rewrite (extract_token _ _ Hbearer Htoken), Hverify, Hfind.
  - intros token decoded u rs Hbearer Htoken Hverify Hfind -> Hrs Hrole.
    rewrite (extract_token _ _ Hbearer Htoken), Hverify, Hfind.
    destruct rs as [|r rs]; [done|]. cbn [default].
    change (0 <? Z.of_nat (length (r :: rs))) with true.
    by rewrite bool_decide_eq_false_2.
  - intros token decoded u Hbearer Htoken Hverify Hfind Hallowed.
    rewrite (extract_token _ _ Hbearer Htoken), Hverify, Hfind.
    apply denied_iff in Hallowed. rewrite Hallowed. unfold handled.
    split; [|done]. by destruct (handler (attach_user request u)).
Qed.

(** C6. When the identity store fails while the gate looks the subject
    up, the gate answers with the generic 401 ['Authentication failed']:
    it neither propagates the failure nor answers 500, and it does not
    call the handler. *)
Theorem store_failure_is_denied (now : Z) (request : Request)
    (handler : Handler) (roles : option (list string))
    (token : string) (decoded : Claims) (e : JS.Error) :
  bearer request token -> token <> EmptyString ->
  Jwt.verifyAccessToken JWT_SECRET now token = JS.Normal decoded ->
  findUnique (decoded !! "id") = LookupFails e ->
  let run := withAuth JWT_SECRET findUnique now request handler roles in
  completion run
  = JS.Normal (Response.errorResponse "Authentication failed" 401 None)
  /\ handler_calls run = []
  /\ (forall response, completion run = JS.Normal response ->
        status response = 401).
Proof.
  intros Hbearer Htoken Hverify Hfind. cbn zeta. unfold withAuth.
  rewrite (extract_token _ _ Hbearer Htoken), Hverify, Hfind.
  cbn [completion handler_calls]. repeat split.
  by intros response [= <-].
Qed.

End AuthenticationGate.

(** ** The properties at concrete requests

    The definitions run on the reference serialisation. *)

Section Examples.
Import Http Tokens.

Lemma wire_sound : codec_sound Wire.codec.
Proof.
  intros j. cbn.
  assert (forall p, Wire.bits_to_pos (Wire.pos_to_bits p) = Some p) as ->.
  { induction p as [p IH|p IH|]; cbn; by rewrite ?IH. }
  apply decode_encode.
Qed.

Definition example_secret : string := "0f3c-access-secret".
Definition example_refresh_secret : string := "9a71-refresh-secret".

(** The clock at the issue of a token, 2023-11-14T22:13:20Z, and one
    minute later. *)
Definition t_issue : Z := 1700000000000.
Definition t_use : Z := 1700000060000.

(** Sixteen minutes after the issue, past the fifteen minutes an access
    token lives. *)
Definition t_late : Z := 1700000960000.

Definition alice : Jwt.Identity :=
  Jwt.mkIdentity (JS.Num 7) (JS.Str "alice@example.org") (JS.Str "User").

Definition alice_record : User :=
  mkUser (JS.Num 7) "Alice" "alice@example.org" "User"
         1690000000000 1690000000000.

Definition alice_access_token : string :=
  Jwt.generateAccessToken example_secret 900 t_issue alice.

Definition with_bearer (meth path token : string) : Request :=
  mkRequest meth path {[ "authorization" := "Bearer " +:+ token ]} None.

Definition ok_handler : Handler :=
  fun _ => JS.Normal (mkResponse 200 (OtherBody "ok") ∅).

Lemma alice_access_token_not_empty : alice_access_token <> EmptyString.
Proof. vm_compute. discriminate. Qed.

Lemma access_token_round_trip_witness :
  (exists claims,
      Jwt.verifyAccessToken example_secret t_use alice_access_token
      = JS.Normal claims
      /\ claims !! "id" = Some (JS.Num 7)
      /\ claims !! "email" = Some (JS.Str "alice@example.org")
      /\ claims !! "role" = Some (JS.Str "User"))
  /\ Jwt.verifyRefreshToken example_refresh_secret t_use alice_access_token
     = JS.Throws (JS.mkError "Error" "Invalid refresh token").
Proof.
  apply (access_token_round_trip wire_sound example_secret
           example_refresh_secret 900 t_issue t_use alice).
  vm_compute. reflexivity.
Defined.

(** C2 as stated fails: with the two secrets distinct, as a deployment
    has them, [verifyRefreshToken] refuses an access token because its
    signature does not verify, with ['Invalid refresh token'], and not
    with the wrong-kind error ['Invalid token type']. *)
Lemma access_token_round_trip_counterexample :
  Jwt.verifyRefreshToken example_refresh_secret t_use alice_access_token
  = JS.Throws (JS.mkError "Error" "Invalid refresh token")
  /\ Jwt.verifyRefreshToken example_refresh_secret t_use alice_access_token
     <> JS.Throws (JS.mkError "Error" "Invalid token type").
Proof.
  unfold alice_access_token.
  rewrite (verifyRefreshToken_access_token wire_sound) by done.
  split; [reflexivity | discriminate].
Qed.

Lemma edge_verifier_accepts_refresh_token_witness :
  let token := Jwt.generateRefreshToken example_secret 604800 t_issue
                 (JS.Num 7) in
  (exists claims,
      Edge.verifyTokenEdge (Some example_secret) t_use token
      = JS.Normal claims
      /\ claims !! "type" = Some (JS.Str "refresh"))
  /\ Jwt.verifyAccessToken example_secret t_use token
     = JS.Throws (JS.mkError "Error" "Invalid token type").
Proof.
  apply (edge_verifier_accepts_refresh_token wire_sound example_secret
           604800 t_issue t_use (JS.Num 7)).
  vm_compute. reflexivity.
Defined.

Definition alice_claims : Claims :=
  signed_claims t_issue (access_claims alice) 900 "todo-api" "todo-app".

Lemma alice_access_token_verifies :
  Jwt.verifyAccessToken example_secret t_use alice_access_token
  = JS.Normal alice_claims.
Proof. by apply (verifyAccessToken_generate wire_sound). Qed.

Lemma alice_access_token_verifies_at_edge :
  Edge.verifyTokenEdge (Some example_secret) t_use alice_access_token
  = JS.Normal alice_claims.
Proof. by apply (verifyTokenEdge_generate wire_sound). Qed.

Lemma alice_access_token_expires :
  Jwt.verifyAccessToken example_secret t_late alice_access_token
  = JS.Throws (JS.mkError "Error" "Token has expired").
Proof. by apply (verifyAccessToken_expired wire_sound). Qed.


Lemma authentication_gate_outcomes_witness :
  let find := fun _ : option JS.Value => Auth.Found alice_record in
  Auth.withAuth example_secret find t_use
    (mkRequest "GET" "/api/users" ∅ None) ok_handler (Some ["Admin"])
  = Auth.mkRun
      (JS.Normal (Response.errorResponse
                    "No token provided. Please login." 401 None)) []
  /\ Auth.withAuth example_secret find t_late
       (with_bearer "GET" "/api/tasks" alice_access_token) ok_handler
       (Some ["User"; "Admin"])
     = Auth.mkRun
         (JS.Normal (Response.errorResponse "Token has expired" 401 None))
         []
  /\ Auth.withAuth example_secret find t_use
       (with_bearer "GET" "/api/users" alice_access_token) ok_handler
       (Some ["Admin"])
     = Auth.mkRun
         (JS.Normal (Response.errorResponse
                       "Access denied. Required role: Admin" 403 None)) []
  /\ Auth.handler_calls
       (Auth.withAuth example_secret find t_use
          (with_bearer "GET" "/api/tasks" alice_access_token) ok_handler
          (Some ["User"; "Admin"]))
     = [mkRequest "GET" "/api/tasks"
          {[ "authorization" := "Bearer " +:+ alice_access_token ]}
          (Some alice_record)].
Proof.
  intros find.
  pose proof alice_access_token_verifies as Hverify.
  split; [|split; [|split]].
  - apply (authentication_gate_outcomes example_secret find t_use
             (mkRequest "GET" "/api/users" ∅ None) ok_handler
             (Some ["Admin"])).
    left. reflexivity.
  - apply (authentication_gate_outcomes example_secret find t_late
             (with_bearer "GET" "/api/tasks" alice_access_token)
             ok_handler (Some ["User"; "Admin"]))
      with (token := alice_access_token)
           (error := JS.mkError "Error" "Token has expired").
    + reflexivity.
    + exact alice_access_token_not_empty.
    + exact alice_access_token_expires.
  - apply (authentication_gate_outcomes example_secret find t_use
             (with_bearer "GET" "/api/users" alice_access_token)
             ok_handler (Some ["Admin"]))
      with (token := alice_access_token) (decoded := alice_claims)
           (u := alice_record) (rs := ["Admin"]).
    + reflexivity.
    + exact alice_access_token_not_empty.
    + exact Hverify.
    + reflexivity.
    + reflexivity.
    + discriminate.
    + intros Hin. apply list_elem_of_singleton in Hin. discriminate.
  - destruct (authentication_gate_outcomes example_secret find t_use
                (with_bearer "GET" "/api/tasks" alice_access_token)
                ok_handler (Some ["User"; "Admin"]))
      as (_ & _ & _ & _ & Hpass).
    destruct (Hpass alice_access_token alice_claims alice_record) as [-> _].
    + reflexivity.
    + exact alice_access_token_not_empty.
    + exact Hverify.
    + reflexivity.
    + right. apply list_elem_of_here.
    + reflexivity.
Defined.

Lemma store_failure_is_denied_witness :
  let find := fun _ : option JS.Value =>
    Auth.LookupFails (JS.mkError "PrismaClientKnownRequestError"
                                 "Can't reach database server") in
  let run := Auth.withAuth example_secret find t_use
               (with_bearer "GET" "/api/tasks" alice_access_token)
               ok_handler (Some ["User"; "Admin"]) in
  Auth.completion run
  = JS.Normal (Response.errorResponse "Authentication failed" 401 None)
  /\ Auth.handler_calls run = []
  /\ (forall response, Auth.completion run = JS.Normal response ->
        status response = 401).
Proof.
  intros find.
  pose proof alice_access_token_verifies as Hverify.
  apply (store_failure_is_denied example_secret find t_use
           (with_bearer "GET" "/api/tasks" alice_access_token) ok_handler
           (Some ["User"; "Admin"]) alice_access_token alice_claims
           (JS.mkError "PrismaClientKnownRequestError"
                       "Can't reach database server")).
  - reflexivity.
  - exact alice_access_token_not_empty.
  - exact Hverify.
  - reflexivity.
Defined.







Lemma unmatched_path_passes_through_witness :
  Edge.getRouteType "/api/health" = Edge.public
  /\ Edge.middleware (Some example_secret) t_use
       (mkRequest "DELETE" "/api/health" ∅ None)
     = Edge.NextResponse_next None.
Proof.
  apply (unmatched_path_passes_through (Some example_secret) t_use
           (mkRequest "DELETE" "/api/health" ∅ None)); reflexivity.
Defined.

End Examples.

(** * Further properties of the code *)

(** ** The rate governor's store *)

Section GovernorStore.
Import Http RateLimit.

Implicit Types (store : gmap string Entry) (ip : string).

(** The header values the governor writes are decimal numbers, which a
    [Headers] object stores as they are: [set] neither strips anything
    from them nor throws. *)
Fixpoint decimal (s : string) : bool :=
  match s with
  | EmptyString => true
  | String c s' =>
      (Ascii.eqb c "-" || (Nat.leb 48 (nat_of_ascii c)
                          && Nat.leb (nat_of_ascii c) 57))
      && decimal s'
  end.

Lemma decimal_stored (s : string) :
  decimal s = true -> header_value s = Some s.
Proof.
  intros Hs.
  assert (forall c, (Ascii.eqb c "-" || (Nat.leb 48 (nat_of_ascii c)
                                       && Nat.leb (nat_of_ascii c) 57))
                    = true ->
            is_http_whitespace c = false /\ forbidden_in_value c = false)
    as Hchar.
  { intros c Hc. unfold is_http_whitespace, forbidden_in_value.
    destruct (Ascii.eqb_spec c "-") as [Hdash|_]; [by rewrite Hdash|].
    cbn [orb] in Hc. apply andb_true_iff in Hc as [Hlo Hhi].
    apply Nat.leb_le in Hlo, Hhi.
    repeat match goal with
           | |- context [Nat.eqb ?a ?b] =>
               destruct (Nat.eqb_spec a b); [lia|]
           end. done. }
  assert (strip_start s = s) as Hstart.
  { destruct s as [|c s]; [done|]. cbn in Hs |- *.
    apply andb_true_iff in Hs as [Hc _].
    by destruct (Hchar c Hc) as [-> _]. }
  assert (strip_end s = s) as Hend.
  { clear Hstart. induction s as [|c s IH]; [done|].
    cbn in Hs |- *. apply andb_true_iff in Hs as [Hc Hs].
    rewrite (IH Hs). destruct (Hchar c Hc) as [-> _]. by destruct s. }
  assert (valid_value s = true) as Hvalid.
  { clear Hstart Hend. induction s as [|c s IH]; [done|].
    cbn in Hs |- *. apply andb_true_iff in Hs as [Hc Hs].
    destruct (Hchar c Hc) as [_ ->]. by rewrite (IH Hs). }
  unfold header_value. by rewrite Hstart, Hend, Hvalid.
Qed.

Lemma toString_decimal (n : Z) : decimal (JS.toString n) = true.
Proof.
  assert (forall x s, decimal s = true -> decimal (pretty_N_go x s) = true)
    as Hgo.
  { intros x. induction (N.lt_wf_0 x) as [x _ IH]. intros s Hs.
    destruct (decide (x = 0)%N) as [->|Hx]; [by rewrite pretty_N_go_0|].
    rewrite pretty_N_go_step by lia. apply IH.
    - apply N.div_lt; lia.
    - cbn [decimal]. rewrite Hs, andb_true_r.
      unfold pretty_N_char. by repeat case_match. }
  assert (forall x : N, decimal (pretty x) = true) as HN.
  { intros x. unfold pretty, pretty_N. case_decide; [done|]. by apply Hgo. }
  unfold JS.toString, pretty, pretty_Z. destruct n as [|p|p]; [done|..].
  - apply HN.
  - change (decimal (String "-" (pretty (N.pos p))) = true).
    cbn [decimal]. apply HN.
Qed.

Lemma governor_header_values_stored (n : Z) :
  header_value (JS.toString n) = Some (JS.toString n).
Proof. apply decimal_stored, toString_decimal. Qed.

(** An evaluation touches the entry of its own key only. *)
Theorem checkRateLimit_other_keys (MAX W now : Z) ip ip' store :
  ip <> ip' ->
  (checkRateLimit MAX W now ip store).2 !! ip' = store !! ip'.
Proof.
  intros Hne. unfold checkRateLimit, getRateLimitInfo.
  destruct (store !! ip) as [d|];
    [destruct (now >? resetTime d)|];
    cbn; repeat case_match; cbn;
    by rewrite ?lookup_insert_ne by done.
Qed.

Lemma checkRateLimit_other_keys_witness :
  let store : gmap string Entry :=
    {[ "10.0.0.2" := {| count := 2; resetTime := 61000 |} ]} in
  (checkRateLimit 3 60000 5000 "10.0.0.1" store).2 !! "10.0.0.2"
  = Some {| count := 2; resetTime := 61000 |}.
Proof.
  intros store.
  rewrite (checkRateLimit_other_keys 3 60000 5000 "10.0.0.1" "10.0.0.2"
             store); [reflexivity | discriminate].
Defined.

(** Every count in the store lies between 0 and the limit. *)
Definition counts_within (MAX : Z) (store : gmap string Entry) : Prop :=
  forall ip d, store !! ip = Some d -> 0 <= count d <= MAX.

(** With a limit that is not negative, evaluations keep every count
    between 0 and the limit, and what the decision reports as remaining is
    exactly the limit less the key's count: the clamp at 0 never acts. *)
Theorem checkRateLimit_keeps_counts_within (MAX W now : Z) ip store :
  0 <= MAX ->
  counts_within MAX store ->
  let d := (checkRateLimit MAX W now ip store).1 in
  let store' := (checkRateLimit MAX W now ip store).2 in
  counts_within MAX store'
  /\ exists e, store' !! ip = Some e
               /\ remaining d = MAX - count e
               /\ decision_resetTime d = resetTime e
               /\ (allowed d = true -> 1 <= count e).
Proof.
  intros HMAX Hinv. cbn zeta.
  assert (forall c r, 0 <= c <= MAX ->
            counts_within MAX (<[ip := {| count := c; resetTime := r |}]> store))
    as Hins.
  { intros c r Hc ip' d'. destruct (decide (ip = ip')) as [<-|Hne].
    - rewrite lookup_insert_eq. by intros [= <-].
    - rewrite lookup_insert_ne by done. apply Hinv. }
  destruct (store !! ip) as [d|] eqn:Hd.
  - destruct (Z_gt_le_dec now (resetTime d)) as [Hover|Hlive].
    + rewrite checkRateLimit_new by (unfold window_over; by rewrite Hd).
      cbn [fst snd allowed remaining decision_resetTime].
      split; [apply Hins; case_match; lia|].
      eexists. rewrite lookup_insert_eq. split; [reflexivity|].
      cbn [count resetTime]. repeat split; case_match; lia.
    + rewrite (checkRateLimit_live MAX W now ip store d Hd Hlive).
      cbn [fst snd allowed remaining decision_resetTime].
      pose proof (Hinv ip d Hd) as Hc.
      destruct (count d <? MAX) eqn:Hroom.
      * split; [apply Hins; lia|].
        eexists. rewrite lookup_insert_eq. split; [reflexivity|].
        cbn [count resetTime]. repeat split; lia.
      * split; [exact Hinv|].
        exists d. repeat split; [done|lia|done].
  - rewrite checkRateLimit_new by (unfold window_over; by rewrite Hd).
    cbn [fst snd allowed remaining decision_resetTime].
    split; [apply Hins; case_match; lia|].
    eexists. rewrite lookup_insert_eq. split; [reflexivity|].
    cbn [count resetTime]. repeat split; case_match; lia.
Qed.

Lemma checkRateLimit_keeps_counts_within_witness :
  exists e,
    (checkRateLimit 3 60000 5000 "10.0.0.1" ∅).2 !! "10.0.0.1" = Some e
    /\ remaining (checkRateLimit 3 60000 5000 "10.0.0.1" ∅).1
       = 3 - count e
    /\ decision_resetTime (checkRateLimit 3 60000 5000 "10.0.0.1" ∅).1
       = resetTime e
    /\ (allowed (checkRateLimit 3 60000 5000 "10.0.0.1" ∅).1 = true ->
        1 <= count e).
Proof.
  apply (checkRateLimit_keeps_counts_within 3 60000 5000 "10.0.0.1" ∅).
  - lia.
  - intros ip d Hd. by rewrite lookup_empty in Hd.
Defined.

(** In one window the governor admits exactly as many evaluations as the
    key has left: with a live entry of count [c], the first
    [MAX_REQUESTS - c] of any number of consecutive evaluations before the
    reset time are allowed, all later ones are refused, and the count ends
    at [c] plus the number allowed. *)
Theorem admit_all_in_one_window (MAX W : Z) (times : list Z) ip store d :
  store !! ip = Some d ->
  Forall (fun now => now <= resetTime d) times ->
  let k := Nat.min (length times) (Z.to_nat (MAX - count d)) in
  map allowed (admit_all MAX W times ip store).1
  = replicate k true ++ replicate (length times - k) false
  /\ (admit_all MAX W times ip store).2 !! ip
     = Some {| count := count d + Z.of_nat k; resetTime := resetTime d |}.
Proof.
  revert store d. induction times as [|now times IH]; intros store d Hd Hlive.
  - cbn. rewrite Hd. split; [done|]. destruct d as [c r]. cbn.
    do 2 f_equal. lia.
  - apply Forall_cons in Hlive as [Hnow Hlive].
    cbn [admit_all length].
    rewrite (checkRateLimit_live MAX W now ip store d Hd Hnow).
    destruct (count d <? MAX) eqn:Hroom.
    + specialize (IH (<[ip := {| count := count d + 1;
                                  resetTime := resetTime d |}]> store)
                    {| count := count d + 1; resetTime := resetTime d |}
                    (lookup_insert_eq _ _ _) Hlive).
      destruct (admit_all MAX W times ip _) as [ds store'].
      cbn [fst snd count resetTime map allowed] in *.
      destruct IH as [IHd IHs]. rewrite IHd, IHs.
      replace (Z.to_nat (MAX - count d))
        with (S (Z.to_nat (MAX - (count d + 1)))) by lia.
      rewrite <- Nat.succ_min_distr. cbn [replicate app Nat.sub].
      split; [done|]. do 2 f_equal. lia.
    + specialize (IH store d Hd Hlive).
      destruct (admit_all MAX W times ip store) as [ds store'].
      cbn [fst snd count resetTime map allowed] in *.
      destruct IH as [IHd IHs]. rewrite IHd, IHs.
      replace (Z.to_nat (MAX - count d)) with 0%nat by lia.
      rewrite !Nat.min_0_r. cbn [replicate app]. rewrite !Nat.sub_0_r.
      done.
Qed.

Lemma admit_all_in_one_window_witness :
  let store : gmap string Entry :=
    {[ "10.0.0.1" := {| count := 1; resetTime := 61000 |} ]} in
  map allowed
    (admit_all 3 60000 [2000; 3000; 4000; 61000] "10.0.0.1" store).1
  = [true; true; false; false]
  /\ (admit_all 3 60000 [2000; 3000; 4000; 61000] "10.0.0.1" store).2
       !! "10.0.0.1"
     = Some {| count := 3; resetTime := 61000 |}.
Proof.
  intros store.
  apply (admit_all_in_one_window 3 60000 [2000; 3000; 4000; 61000]
           "10.0.0.1" store {| count := 1; resetTime := 61000 |}).
  - reflexivity.
  - cbn. repeat constructor; lia.
Defined.

(** The sweep removes the entries whose reset time has passed and no
    others, and it cannot be observed by later evaluations: at any clock
    reading not before the sweep, evaluating a key decides the same and
    leaves the key the same entry whether or not the sweep ran. *)
Theorem cleanup_is_transparent (MAX W now now' : Z) ip store :
  cleanupExpiredEntries now store !! ip
  = match store !! ip with
    | Some d => if now >? resetTime d then None else Some d
    | None => None
    end
  /\ (now <= now' ->
      (checkRateLimit MAX W now' ip (cleanupExpiredEntries now store)).1
      = (checkRateLimit MAX W now' ip store).1
      /\ (checkRateLimit MAX W now' ip (cleanupExpiredEntries now store)).2
           !! ip
         = (checkRateLimit MAX W now' ip store).2 !! ip).
Proof.
  assert (cleanupExpiredEntries now store !! ip
          = match store !! ip with
            | Some d => if now >? resetTime d then None else Some d
            | None => None
            end) as Hclean.
  { unfold cleanupExpiredEntries. rewrite map_lookup_filter.
    destruct (store !! ip) as [d|]; [|done]. cbn.
    destruct (Z.gtb_spec now (resetTime d)).
    - rewrite option_guard_False; [done|]. cbn. lia.
    - rewrite option_guard_True; [done|]. cbn. lia. }
  split; [exact Hclean|]. intros Hlater.
  destruct (store !! ip) as [d|] eqn:Hd.
  - destruct (Z.gtb_spec now (resetTime d)) as [Hgone|Hkept].
    + rewrite !checkRateLimit_new.
      * cbn. by rewrite !lookup_insert_eq.
      * unfold window_over. rewrite Hd. lia.
      * unfold window_over. by rewrite Hclean.
    + destruct (Z_gt_le_dec now' (resetTime d)) as [Hover|Hlive].
      * rewrite !checkRateLimit_new.
        -- cbn. by rewrite !lookup_insert_eq.
        -- unfold window_over. by rewrite Hd.
        -- unfold window_over. by rewrite Hclean.
      * rewrite (checkRateLimit_live MAX W now' ip store d Hd Hlive).
        rewrite (checkRateLimit_live MAX W now' ip _ d Hclean Hlive).
        cbn. split; [done|].
        destruct (count d <? MAX); [by rewrite !lookup_insert_eq|].
        by rewrite Hclean, Hd.
  - rewrite !checkRateLimit_new.
    + cbn. by rewrite !lookup_insert_eq.
    + unfold window_over. by rewrite Hd.
    + unfold window_over. by rewrite Hclean.
Qed.

Lemma cleanup_is_transparent_witness :
  let store : gmap string Entry :=
    {[ "10.0.0.1" := {| count := 3; resetTime := 61000 |} ]} in
  (checkRateLimit 3 60000 70000 "10.0.0.1"
     (cleanupExpiredEntries 65000 store)).1
  = (checkRateLimit 3 60000 70000 "10.0.0.1" store).1
  /\ (checkRateLimit 3 60000 70000 "10.0.0.1"
        (cleanupExpiredEntries 65000 store)).2 !! "10.0.0.1"
     = (checkRateLimit 3 60000 70000 "10.0.0.1" store).2 !! "10.0.0.1".
Proof.
  intros store.
  apply (cleanup_is_transparent 3 60000 65000 70000 "10.0.0.1" store).
  lia.
Defined.

(** The limiters [createRateLimit] makes against the default governor,
    with the same limit and window. Both do the same to their maps, and
    they answer alike but for one header: [withRateLimit] reports the
    remaining quota it computed before it called the handler, while the
    custom limiter reads the count again after the handler has answered,
    so that every request of the same key admitted in the meantime lowers
    what it reports. With no such request the two do not differ. *)
Theorem custom_limiter_against_default_governor
    (MAX W now now_retry overlapping : Z) NODE_ENV request handler store :
  let custom :=
    createRateLimit_overlapped overlapping NODE_ENV MAX W now now_retry
      request handler store in
  let default :=
    withRateLimit MAX W NODE_ENV now now_retry request handler store in
  custom.2 = default.2
  /\ createRateLimit NODE_ENV MAX W now now_retry request handler store
     = default
  /\ match custom.1, default.1 with
     | JS.Normal c, JS.Normal d =>
         status c = status d
         /\ body c = body d
         /\ (forall name,
               JS.toLowerCase name <> "x-ratelimit-remaining" ->
               Headers_get (response_headers c) name
               = Headers_get (response_headers d) name)
     | c, d => c = d
     end
  /\ (development NODE_ENV && loopback (getClientIP request) = false ->
      allowed (checkRateLimit MAX W now (getClientIP request) store).1
      = true ->
      forall c d,
        custom.1 = JS.Normal c -> default.1 = JS.Normal d ->
        exists quota,
          Headers_get (response_headers d) "X-RateLimit-Remaining"
          = Some (JS.toString quota)
          /\ Headers_get (response_headers c) "X-RateLimit-Remaining"
             = Some (JS.toString (quota - overlapping))).
Proof.
  cbn zeta.
  unfold createRateLimit, createRateLimit_overlapped, withRateLimit,
    checkRateLimit, getRateLimitInfo.
  destruct (development NODE_ENV && loopback (getClientIP request)).
  { repeat split; [|done]. by destruct (async_return (handler request)). }
  set (ip := getClientIP request).
  assert (forall c, (c <? MAX) = true ->
            Z.max 0 (MAX - (c + 1)) = MAX - (c + 1)) as Hclamp by lia.
  assert (forall (h : gmap string string) (a b r : string) (name : string),
            JS.toLowerCase name <> "x-ratelimit-remaining" ->
            Headers_get
              (Headers_set (Headers_set h "X-RateLimit-Remaining" a)
                 "X-RateLimit-Reset" r) name
            = Headers_get
                (Headers_set (Headers_set h "X-RateLimit-Remaining" b)
                   "X-RateLimit-Reset" r) name) as Hother.
  { intros h a b r name Hname. unfold Headers_get, Headers_set.
    change (JS.toLowerCase "X-RateLimit-Remaining")
      with "x-ratelimit-remaining".
    destruct (decide (JS.toLowerCase "X-RateLimit-Reset"
                      = JS.toLowerCase name)) as [<- | Hreset].
    - by rewrite !lookup_insert_eq.
    - rewrite !(lookup_insert_ne _ (JS.toLowerCase "X-RateLimit-Reset"))
        by done.
      by rewrite !lookup_insert_ne by done. }
  assert (forall (h : gmap string string) (a r : string),
            Headers_get
              (Headers_set (Headers_set h "X-RateLimit-Remaining" a)
                 "X-RateLimit-Reset" r) "X-RateLimit-Remaining"
            = Some a) as Hremaining.
  { intros h a r. unfold Headers_get, Headers_set.
    rewrite lookup_insert_ne by done. apply lookup_insert_eq. }
  destruct (store !! ip) as [d|];
    [destruct (now >? resetTime d)|];
    cbn [count resetTime];
    match goal with
    | |- context [?c <? MAX] => destruct (c <? MAX) eqn:Hroom
    end;
    cbn [negb allowed remaining decision_resetTime limit count resetTime];
    try rewrite (Hclamp _ Hroom);
    rewrite ?Z.add_0_r;
    first
      [ destruct (Date.toISOString _); cbn [fst snd];
        (split; [done|]); (split; [done|]);
        (split; [by repeat (split; [done|]) |]);
        by intros _ Hallowed
      | destruct (handler request) as [response|e|e];
        cbn [fst snd];
        (split; [done|]); (split; [done|]);
        (split;
         [ first [ done
                 | split; [done|]; split; [done|];
                   intros name Hname; by apply Hother ]
         | intros _ _ c' d' Hc Hd;
           first [ done
                 | injection Hc as <-; injection Hd as <-;
                   cbn [response_headers]; eexists;
                   rewrite !Hremaining; split; [reflexivity|];
                   do 2 f_equal; lia ] ]) ].
Qed.

Lemma custom_limiter_against_default_governor_witness :
  let store : gmap string Entry :=
    {[ "10.0.0.1" := {| count := 1; resetTime := 61000 |} ]} in
  let request :=
    mkRequest "POST" "/api/auth/login"
      {[ "x-forwarded-for" := "10.0.0.1" ]} None in
  exists c d quota,
    (createRateLimit_overlapped 1 None 3 60000 5000 5000 request ok_handler
       store).1 = JS.Normal c
    /\ (withRateLimit 3 60000 None 5000 5000 request ok_handler store).1
       = JS.Normal d
    /\ Headers_get (response_headers d) "X-RateLimit-Remaining"
       = Some (JS.toString quota)
    /\ Headers_get (response_headers c) "X-RateLimit-Remaining"
       = Some (JS.toString (quota - 1)).
Proof.
  intros store request.
  destruct (custom_limiter_against_default_governor 3 60000 5000 5000 1 None
              request ok_handler store) as (_ & _ & _ & Hheader).
  edestruct (Hheader eq_refl eq_refl _ _ eq_refl eq_refl)
    as (quota & Hd & Hc).
  eexists _, _, quota.
  split; [reflexivity|]. split; [reflexivity|].
  split; [exact Hd | exact Hc].
Defined.

(** A request the governor admits uses up quota even when its handler
    fails: the failure is passed on and the count stays incremented. *)
Theorem failed_handler_consumes_quota
    (MAX W now now_retry : Z) NODE_ENV request handler store d e :
  development NODE_ENV && loopback (getClientIP request) = false ->
  store !! getClientIP request = Some d ->
  now <= resetTime d ->
  count d < MAX ->
  handler request = JS.Throws e \/ handler request = JS.Rejects e ->
  let result :=
    withRateLimit MAX W NODE_ENV now now_retry request handler store in
  result.1 = JS.Rejects e
  /\ result.2 !! getClientIP request
     = Some {| count := count d + 1; resetTime := resetTime d |}.
Proof.
  intros Hgoverned Hd Hlive Hroom Hfails. cbn zeta. unfold withRateLimit.
  rewrite Hgoverned.
  rewrite (checkRateLimit_live MAX W now _ store d Hd Hlive).
  assert ((count d <? MAX) = true) as -> by lia.
  cbn [negb allowed].
  destruct Hfails as [-> | ->]; cbn; by rewrite lookup_insert_eq.
Qed.

Lemma failed_handler_consumes_quota_witness :
  let store : gmap string Entry :=
    {[ "10.0.0.1" := {| count := 1; resetTime := 61000 |} ]} in
  let request :=
    mkRequest "GET" "/api/tasks" {[ "x-forwarded-for" := "10.0.0.1" ]} None in
  let failing : Handler := fun _ => JS.Rejects (JS.mkError "Error" "boom") in
  (withRateLimit 3 60000 None 5000 5000 request failing store).1
  = JS.Rejects (JS.mkError "Error" "boom")
  /\ (withRateLimit 3 60000 None 5000 5000 request failing store).2
       !! getClientIP request
     = Some {| count := 2; resetTime := 61000 |}.
Proof.
  intros store request failing.
  apply (failed_handler_consumes_quota 3 60000 5000 5000 None request
           failing store {| count := 1; resetTime := 61000 |}
           (JS.mkError "Error" "boom")).
  - reflexivity.
  - reflexivity.
  - cbn. lia.
  - cbn. lia.
  - right. reflexivity.
Defined.

End GovernorStore.

(** ** The Token Service: what it accepts, what it reports *)

Section TokenServiceMore.
Import Http Tokens Jwt.
Context `{Codec}.
Hypothesis serialisation : codec_sound _.

(** A refresh token verified before it expires is accepted by
    [verifyRefreshToken] and carries the subject's id and the kind
    refresh, but neither email nor role; [verifyAccessToken] refuses it,
    with ['Invalid token'] when the two secrets differ and with
    ['Invalid token type'] when they are equal. *)
Theorem refresh_token_round_trip
    (JWT_SECRET JWT_REFRESH_SECRET : string) (expiresIn now now' : Z)
    (uid : JS.Value) :
  epoch now' < epoch now + expiresIn ->
  let token := generateRefreshToken JWT_REFRESH_SECRET expiresIn now uid in
  (exists claims,
      verifyRefreshToken JWT_REFRESH_SECRET now' token = JS.Normal claims
      /\ claims !! "id" = Some uid
      /\ claims !! "type" = Some (JS.Str "refresh")
      /\ claims !! "email" = None
      /\ claims !! "role" = None)
  /\ verifyAccessToken JWT_SECRET now' token
     = JS.Throws
         (JS.mkError "Error"
            (if bool_decide (JWT_SECRET = JWT_REFRESH_SECRET)
             then "Invalid token type"
             else "Invalid token")).
Proof.
  intros Hfresh token. subst token.
  unfold generateRefreshToken, verifyRefreshToken, verifyAccessToken.
  fold (refresh_claims uid).
  assert (refresh_claims uid !! "nbf" = None) as Hnbf by done.
  rewrite !(jwt_verify_sign serialisation) by done.
  rewrite bool_decide_eq_true_2 by done.
  assert ((epoch now' >=? epoch now + expiresIn) = false) as -> by lia.
  cbn [bind try_catch]. rewrite !signed_claims_other by done.
  split.
  - eexists. split; [reflexivity|]. by rewrite !signed_claims_other.
  - destruct (decide (JWT_REFRESH_SECRET = JWT_SECRET)) as [->|Hne].
    + rewrite !bool_decide_eq_true_2 by done.
      cbn [bind try_catch]. by rewrite signed_claims_other.
    + by rewrite !bool_decide_eq_false_2 by done.
Qed.

(** [verifyAccessToken] accepts nothing but a well-formed token signed
    with [JWT_SECRET] whose kind is access, whose issuer is ['todo-api'],
    whose audience contains ['todo-app'], whose [exp], if any, is a number
    of seconds after the clock and whose [nbf], if any, is one not after
    it; what it returns are that token's claims. *)
Theorem verifyAccessToken_accepts_only (JWT_SECRET : string) (now : Z)
    (token : string) (claims : Claims) :
  verifyAccessToken JWT_SECRET now token = JS.Normal claims ->
  exists j,
    parse token = Some j
    /\ claims = payload j
    /\ signature j = Hmac JWT_SECRET claims
    /\ JS.strict_eq_str (claims !! "type") "access" = true
    /\ JS.strict_eq_str (claims !! "iss") "todo-api" = true
    /\ audience_matches (claims !! "aud") "todo-app" = true
    /\ (forall v, claims !! "exp" = Some v ->
          exists n, v = JS.Num n /\ epoch now < n)
    /\ (forall v, claims !! "nbf" = Some v ->
          exists n, v = JS.Num n /\ n <= epoch now).
Proof.
  unfold verifyAccessToken, jwt_verify.
  destruct (parse token) as [j|];
    [|cbn [bind try_catch]; by repeat case_match].
  unfold signature_valid. case_bool_decide as Hsig; [|done].
  cbn [guard bind].
  intros Hok. exists j.
  assert (forall v, payload j !! "nbf" = Some v ->
            exists n, v = JS.Num n /\ n <= epoch now) as Hnbf.
  { intros v Hv. rewrite Hv in Hok.
    destruct v as [[| | n |]| |]; try done. cbn in Hok.
    destruct (Z.gtb_spec n (epoch now)); [done|]. exists n. split; [done|lia]. }
  assert (match payload j !! "nbf" with
          | Some v => match JS.as_number (Some v) with
                      | Some nbf => guard (negb (nbf >? epoch now))
                                      (NotBeforeError "jwt not active")
                      | None => JS.Throws
                                  (JsonWebTokenError "invalid nbf value")
                      end
          | None => JS.Normal tt
          end = JS.Normal tt) as Hnbf_ok.
  { destruct (payload j !! "nbf") as [v|]; [|done].
    destruct (Hnbf v eq_refl) as (n & -> & Hn). cbn.
    by destruct (Z.gtb_spec n (epoch now)); [lia|]. }
  rewrite Hnbf_ok in Hok. cbn [bind] in Hok.
  assert (forall v, payload j !! "exp" = Some v ->
            exists n, v = JS.Num n /\ epoch now < n) as Hexp.
  { intros v Hv. rewrite Hv in Hok.
    destruct v as [[| | n |]| |]; try done. cbn in Hok.
    destruct (Z.geb_spec (epoch now) n); [done|]. exists n. split; [done|lia]. }
  assert (match payload j !! "exp" with
          | Some v => match JS.as_number (Some v) with
                      | Some exp => guard (negb (epoch now >=? exp))
                                      (TokenExpiredError "jwt expired")
                      | None => JS.Throws
                                  (JsonWebTokenError "invalid exp value")
                      end
          | None => JS.Normal tt
          end = JS.Normal tt) as Hexp_ok.
  { destruct (payload j !! "exp") as [v|]; [|done].
    destruct (Hexp v eq_refl) as (n & -> & Hn). cbn.
    by destruct (Z.geb_spec (epoch now) n); [lia|]. }
  rewrite Hexp_ok in Hok. cbn [bind] in Hok.
  destruct (audience_matches (payload j !! "aud") "todo-app") eqn:Haud;
    [|done].
  destruct (JS.strict_eq_str (payload j !! "iss") "todo-api") eqn:Hiss;
    [|done].
  cbn [guard bind try_catch] in Hok.
  destruct (JS.strict_eq_str (payload j !! "type") "access") eqn:Htype;
    [|done].
  cbn in Hok. injection Hok as <-.
  by repeat split.
Qed.

(** [verifyAccessToken] throws, and never rejects asynchronously. On a
    well-formed token the message of what it throws is one of four:
    ['Invalid token'], ['Token has expired'], ['Invalid token type'] and,
    passed on from the library untranslated, ['jwt not active']; a token
    whose signature does not verify gives ['Invalid token']. On a string
    that is no token it throws ['Invalid token'] if the library's error
    is a [JsonWebTokenError], and the library's error itself if that is
    of another kind than the two the catch block translates. *)
Theorem verifyAccessToken_failures (JWT_SECRET : string) (now : Z)
    (token : string) :
  (forall e, verifyAccessToken JWT_SECRET now token <> JS.Rejects e)
  /\ (forall j,
        parse token = Some j ->
        match verifyAccessToken JWT_SECRET now token with
        | JS.Normal _ => True
        | JS.Throws e =>
            JS.message e ∈ [ "Invalid token"; "Token has expired";
                             "Invalid token type"; "jwt not active" ]
        | JS.Rejects _ => False
        end
        /\ (signature_valid JWT_SECRET j = false ->
            verifyAccessToken JWT_SECRET now token
            = JS.Throws (JS.mkError "Error" "Invalid token")))
  /\ (parse token = None ->
      let e := jwt_verify_error token JWT_SECRET in
      (JS.name e = "JsonWebTokenError" ->
       verifyAccessToken JWT_SECRET now token
       = JS.Throws (JS.mkError "Error" "Invalid token"))
      /\ (JS.name e <> "JsonWebTokenError" ->
          JS.name e <> "TokenExpiredError" ->
          verifyAccessToken JWT_SECRET now token = JS.Throws e)).
Proof.
  clear serialisation.
  assert (forall j, parse token = Some j ->
            match verifyAccessToken JWT_SECRET now token with
            | JS.Normal _ => True
            | JS.Throws e =>
                JS.message e ∈ [ "Invalid token"; "Token has expired";
                                 "Invalid token type"; "jwt not active" ]
            | JS.Rejects _ => False
            end
            /\ (signature_valid JWT_SECRET j = false ->
                verifyAccessToken JWT_SECRET now token
                = JS.Throws (JS.mkError "Error" "Invalid token")))
    as Hparsed.
  { intros j Hj. unfold verifyAccessToken, jwt_verify. rewrite Hj.
    destruct (signature_valid JWT_SECRET j); [|split; [set_solver|done]].
    split; [|done]. cbn [guard bind].
    destruct (payload j !! "nbf") as [[[| | nbf |]| |]|];
      cbn [JS.as_number guard bind negb try_catch]; try set_solver;
      [destruct (nbf >? epoch now);
       cbn [guard bind negb try_catch]; try set_solver|];
      (destruct (payload j !! "exp") as [[[| | exp |]| |]|];
       cbn [JS.as_number guard bind negb try_catch]; try set_solver;
       [destruct (epoch now >=? exp);
        cbn [guard bind negb try_catch]; try set_solver|];
       (destruct (audience_matches (payload j !! "aud") "todo-app");
        cbn [guard bind negb try_catch]; [|set_solver];
        destruct (JS.strict_eq_str (payload j !! "iss") "todo-api");
        cbn [guard bind negb try_catch]; [|set_solver];
        destruct (JS.strict_eq_str (payload j !! "type") "access");
        cbn; set_solver)). }
  assert (parse token = None ->
          verifyAccessToken JWT_SECRET now token
          = let e := jwt_verify_error token JWT_SECRET in
            if String.eqb (JS.name e) "TokenExpiredError"
            then JS.Throws (JS.mkError "Error" "Token has expired")
            else if String.eqb (JS.name e) "JsonWebTokenError"
            then JS.Throws (JS.mkError "Error" "Invalid token")
            else JS.Throws e) as Hunparsed.
  { intros Hnone. unfold verifyAccessToken, jwt_verify. by rewrite Hnone. }
  split; [|split; [exact Hparsed|]].
  - intros e. destruct (parse token) as [j|] eqn:Hj.
    + destruct (Hparsed j eq_refl) as [Hcases _]. intros Hrejects.
      by rewrite Hrejects in Hcases.
    + rewrite (Hunparsed eq_refl). cbn zeta. by repeat case_match.
  - intros Hnone. rewrite (Hunparsed Hnone). cbn zeta. split.
    + by intros ->.
    + intros Hjwt Hexpired.
      destruct (String.eqb_spec (JS.name (jwt_verify_error token JWT_SECRET))
                  "TokenExpiredError"); [done|].
      by destruct (String.eqb_spec
                     (JS.name (jwt_verify_error token JWT_SECRET))
                     "JsonWebTokenError").
Qed.

Lemma epoch_le (exp now : Z) : exp <= epoch now <-> exp * 1000 <= now.
Proof.
  unfold epoch.
  pose proof (Z.div_mod now 1000 ltac:(lia)) as Hdm.
  pose proof (Z.mod_pos_bound now 1000 ltac:(lia)) as Hb.
  lia.
Qed.

Lemma decodeToken_sign (now : Z) (p : Claims) (k : string) (ttl : Z)
    (issuer audience : string) :
  decodeToken (jwt_sign now p k ttl issuer audience)
  = Some (signed_claims now p ttl issuer audience).
Proof.
  unfold decodeToken, jwt_decode, jwt_sign. by rewrite serialisation.
Qed.

(** The expiry helpers against the verifier, on an access token issued at
    [now]: [getTokenExpiration] is the issue second plus the life time, in
    milliseconds; [isTokenExpired] holds strictly after that instant,
    while [verifyAccessToken] reports expiry from that instant on, so the
    two answer differently at exactly one millisecond. *)
Theorem expiry_helpers_against_verifier
    (StringToNumber : string -> option Z) (JWT_SECRET : string)
    (expiresIn now now' : Z) (I : Identity) :
  let token := generateAccessToken JWT_SECRET expiresIn now I in
  let exp := epoch now + expiresIn in
  exp <> 0 ->
  JwtExpiry.getTokenExpiration StringToNumber token
  = Some (JwtExpiry.new_Date (Some (exp * 1000)))
  /\ JwtExpiry.isTokenExpired StringToNumber now' token
     = (exp * 1000 <? now')
  /\ (verifyAccessToken JWT_SECRET now' token
      = JS.Throws (JS.mkError "Error" "Token has expired")
      <-> exp * 1000 <= now').
Proof.
  intros token exp Hexp. subst token.
  unfold JwtExpiry.getTokenExpiration, JwtExpiry.isTokenExpired,
    generateAccessToken.
  rewrite decodeToken_sign.
  destruct (signed_claims_registered now
              (<["id" := id I]>
                 (<["email" := email I]>
                    (<["role" := role I]>
                       (<["type" := JS.Str "access"]> ∅))))
              expiresIn "todo-api" "todo-app") as (_ & _ & -> & _).
  fold exp. cbn [JS.truthy JS.Num JwtExpiry.ToNumber negb].
  assert ((exp =? 0) = false) as -> by lia. cbn [negb].
  split; [done|]. split; [done|].
  fold (generateAccessToken JWT_SECRET expiresIn now I).
  rewrite <- epoch_le. split.
  - intros Hthrown. destruct (Z_lt_le_dec (epoch now') exp) as [Hfresh|]; [|done].
    by rewrite (verifyAccessToken_generate serialisation) in Hthrown.
  - intros Hlate. by apply (verifyAccessToken_expired serialisation).
Qed.

(** A correctly signed access token without [exp] and [nbf] claims never
    expires for [verifyAccessToken], at any clock reading, while
    [isTokenExpired] calls it expired and [getTokenExpiration] gives
    [null]; so do both for a string that is no token. *)
Theorem token_without_exp (StringToNumber : string -> option Z)
    (JWT_SECRET : string) (now : Z) (token : string) :
  (forall j,
     parse token = Some j ->
     signature j = Hmac JWT_SECRET (payload j) ->
     audience_matches (payload j !! "aud") "todo-app" = true ->
     JS.strict_eq_str (payload j !! "iss") "todo-api" = true ->
     JS.strict_eq_str (payload j !! "type") "access" = true ->
     payload j !! "exp" = None ->
     payload j !! "nbf" = None ->
     verifyAccessToken JWT_SECRET now token = JS.Normal (payload j)
     /\ JwtExpiry.isTokenExpired StringToNumber now token = true
     /\ JwtExpiry.getTokenExpiration StringToNumber token = None)
  /\ (parse token = None ->
      JwtExpiry.isTokenExpired StringToNumber now token = true
      /\ JwtExpiry.getTokenExpiration StringToNumber token = None).
Proof.
  unfold JwtExpiry.isTokenExpired, JwtExpiry.getTokenExpiration,
    decodeToken, jwt_decode, verifyAccessToken, jwt_verify.
  split.
  - intros j -> Hsig Haud Hiss Htype Hexp Hnbf.
    unfold signature_valid. rewrite bool_decide_eq_true_2 by done.
    cbn [fmap option_fmap option_map guard bind].
    rewrite Hnbf, Hexp, Haud, Hiss. cbn [guard bind try_catch].
    by rewrite Htype.
  - by intros ->.
Qed.

Lemma extract_bearer (authHeader : option string) (token : string) :
  extractTokenFromHeader authHeader = Some token ->
  authHeader = Some ("Bearer " +:+ token).
Proof.
  unfold extractTokenFromHeader.
  destruct authHeader as [h|]; [|done]. cbn [JS.truthy_string].
  destruct (String.eqb h EmptyString); [done|].
  destruct (JS.startsWith h "Bearer ") eqn:Hprefix; [|done].
  cbn [negb]. intros [= <-]. f_equal.
  exact (startsWith_append h "Bearer " Hprefix).
Qed.

(** [extractTokenFromHeader] returns a token exactly for a header that
    is ['Bearer '] followed by that token (which may be empty), and
    [null] for every other header and for none. *)
Theorem extractTokenFromHeader_spec (authHeader : option string)
    (token : string) :
  extractTokenFromHeader authHeader = Some token
  <-> authHeader = Some ("Bearer " +:+ token).
Proof.
  split; [apply extract_bearer|]. by intros ->.
Qed.

(** The time rules, which the two libraries share: [nbf], if any, is a
    number not after the clock, and [exp], if any, a number after it. *)
Definition in_time (now : Z) (p : Claims) : bool :=
  match p !! "nbf" with
  | None => true
  | Some v => match JS.as_number (Some v) with
              | Some nbf => negb (nbf >? epoch now)
              | None => false
              end
  end
  && match p !! "exp" with
     | None => true
     | Some v => match JS.as_number (Some v) with
                 | Some exp => negb (epoch now >=? exp)
                 | None => false
                 end
     end.

Local Ltac settled :=
  split;
  [ intros [= <-]; repeat split; first [done | by left | right; by eexists]
  | intros (-> & ? & ? & ?);
    repeat match goal with
           | H : _ /\ _ |- _ => destruct H
           | H : _ \/ _ |- _ => destruct H as [? | [? ?]]
           end;
    done ].

(** When [jwt.verify] accepts a token [jwt.sign] has written. *)
Lemma jwt_verify_serialized (now : Z) (j : Jws) (secret : string)
    (issuer audience : string) (claims : Claims) :
  jwt_verify now (serialize j) secret issuer audience = JS.Normal claims
  <-> claims = payload j
      /\ signature_valid secret j = true
      /\ in_time now (payload j) = true
      /\ audience_matches (payload j !! "aud") audience = true
      /\ JS.strict_eq_str (payload j !! "iss") issuer = true.
Proof.
  unfold jwt_verify, in_time. rewrite serialisation.
  destruct (signature_valid secret j); cbn [guard bind]; [|settled].
  destruct (payload j !! "nbf") as [[[| | nbf |]| |]|];
    cbn [JS.as_number guard bind negb andb]; try settled;
    [destruct (nbf >? epoch now);
     cbn [guard bind negb andb]; try settled|];
    (destruct (payload j !! "exp") as [[[| | exp |]| |]|];
     cbn [JS.as_number guard bind negb andb]; try settled;
     [destruct (epoch now >=? exp);
      cbn [guard bind negb andb]; try settled|];
     (destruct (audience_matches (payload j !! "aud") audience);
      cbn [guard bind]; [|settled];
      destruct (JS.strict_eq_str (payload j !! "iss") issuer);
      cbn [guard bind]; settled)).
Qed.

(** When [jwtVerify] accepts a token [jwt.sign] has written. *)
Lemma jwtVerify_serialized (now : Z) (j : Jws) (secret : string)
    (claims : Claims) :
  jwtVerify now (serialize j) secret = JS.Normal claims
  <-> claims = payload j
      /\ signature_valid secret j = true
      /\ in_time now (payload j) = true
      /\ (payload j !! "iat" = None
          \/ exists n, payload j !! "iat" = Some (JS.Num n)).
Proof.
  unfold jwtVerify, in_time. rewrite serialisation.
  destruct (signature_valid secret j); cbn [negb]; [|settled].
  destruct (payload j !! "iat") as [[[| | iat |]| |]|];
    cbn [JS.as_number]; try settled;
    (destruct (payload j !! "nbf") as [[[| | nbf |]| |]|];
     cbn [JS.as_number negb andb]; try settled;
     [destruct (nbf >? epoch now); cbn [negb andb]; try settled|];
     (destruct (payload j !! "exp") as [[[| | exp |]| |]|];
      cbn [JS.as_number negb andb]; try settled;
      assert ((exp <=? epoch now) = (epoch now >=? exp)) as -> by lia;
      destruct (epoch now >=? exp); cbn [negb]; settled)).
Qed.

(** On the tokens the Token Service writes, the serialisations of
    [jwt.sign], whoever signed them, the two verifiers differ by the
    kind, issuer and audience rules and by the [iat] rule only: the Token
    Service accepts such a token, whose [iat] claim is a number if there
    is one, exactly when the Edge Verifier accepts it and its kind,
    issuer and audience are those of an access token; and they return
    the same claims. *)
Theorem edge_accepts_what_service_accepts (JWT_SECRET : string) (now : Z)
    (j : Jws) (claims : Claims) :
  JWT_SECRET <> EmptyString ->
  (verifyAccessToken JWT_SECRET now (serialize j) = JS.Normal claims
   /\ (claims !! "iat" = None
       \/ exists n, claims !! "iat" = Some (JS.Num n)))
  <-> (Edge.verifyTokenEdge (Some JWT_SECRET) now (serialize j)
       = JS.Normal claims
       /\ JS.strict_eq_str (claims !! "type") "access" = true
       /\ JS.strict_eq_str (claims !! "iss") "todo-api" = true
       /\ audience_matches (claims !! "aud") "todo-app" = true).
Proof.
  intros _.
  assert (Edge.verifyTokenEdge (Some JWT_SECRET) now (serialize j)
          = JS.Normal claims
          <-> jwtVerify now (serialize j) JWT_SECRET = JS.Normal claims)
    as Hedge.
  { unfold Edge.verifyTokenEdge. rewrite edge_secret.
    by destruct (jwtVerify now (serialize j) JWT_SECRET). }
  assert (verifyAccessToken JWT_SECRET now (serialize j) = JS.Normal claims
          <-> jwt_verify now (serialize j) JWT_SECRET "todo-api" "todo-app"
              = JS.Normal claims
              /\ JS.strict_eq_str (claims !! "type") "access" = true)
    as Hservice.
  { unfold verifyAccessToken.
    destruct (jwt_verify now (serialize j) JWT_SECRET "todo-api" "todo-app")
      as [decoded|e|e]; cbn [bind try_catch].
    - destruct (JS.strict_eq_str (decoded !! "type") "access") eqn:Htype;
        cbn [negb try_catch].
      + split; [by intros [= <-] | by intros [[= <-] _]].
      + split; [done | intros [[= <-] Htype']; congruence].
    - split; [by repeat case_match | by intros [? _]].
    - split; [by repeat case_match | by intros [? _]]. }
  pose proof (jwt_verify_serialized now j JWT_SECRET "todo-api" "todo-app"
                claims) as Hjwt.
  pose proof (jwtVerify_serialized now j JWT_SECRET claims) as Hjose.
  split.
  - intros [Haccepted Hiat].
    apply Hservice in Haccepted as [Hverified Htype].
    apply Hjwt in Hverified as (-> & Hsig & Htime & Haud & Hiss).
    split; [|done]. apply Hedge, Hjose. done.
  - intros (Haccepted & Htype & Hiss & Haud).
    apply Hedge, Hjose in Haccepted as (-> & Hsig & Htime & Hiat).
    split; [|done]. apply Hservice. split; [|done]. apply Hjwt. done.
Qed.

(** The Edge Verifier accepts nothing but a well-formed token signed
    with the secret whose [exp], if any, is a number of seconds after the
    clock, whose [nbf], if any, is one not after it and whose [iat], if
    any, is a number; what it resolves with are that token's claims. *)
Theorem verifyTokenEdge_accepts_only (JWT_SECRET : string) (now : Z)
    (token : string) (claims : Claims) :
  Edge.verifyTokenEdge (Some JWT_SECRET) now token = JS.Normal claims ->
  exists j,
    parse token = Some j
    /\ claims = payload j
    /\ signature j = Hmac JWT_SECRET claims
    /\ (forall v, claims !! "exp" = Some v ->
          exists n, v = JS.Num n /\ epoch now < n)
    /\ (forall v, claims !! "nbf" = Some v ->
          exists n, v = JS.Num n /\ n <= epoch now)
    /\ (forall v, claims !! "iat" = Some v -> exists n, v = JS.Num n).
Proof.
  unfold Edge.verifyTokenEdge, jwtVerify. rewrite edge_secret.
  destruct (parse token) as [j|]; [|done].
  unfold signature_valid. case_bool_decide as Hsig; [|done].
  cbn [negb]. intros Hok. exists j.
  destruct (payload j !! "iat") as [[[| | iat |]| |]|] eqn:Hiat;
    cbn [JS.as_number] in Hok; try done;
    (destruct (payload j !! "nbf") as [[[| | nbf |]| |]|] eqn:Hnbf;
     cbn [JS.as_number] in Hok; try done;
     [destruct (Z.gtb_spec nbf (epoch now)); [done|]|];
     (destruct (payload j !! "exp") as [[[| | exp |]| |]|] eqn:Hexp;
      cbn [JS.as_number] in Hok; try done;
      [destruct (Z.leb_spec exp (epoch now)); [done|]|];
      injection Hok as <-;
      rewrite ?Hiat, ?Hnbf, ?Hexp;
      repeat split; try done;
      intros v [= <-]; eexists; split; try reflexivity; lia)).
Qed.

(** [generateTokens] gives a pair for one subject: before they expire,
    the access token passes [verifyAccessToken] and the refresh token
    passes [verifyRefreshToken], both with the subject's id, whether or
    not the two secrets differ. *)
Theorem token_pair_round_trip
    (JWT_SECRET JWT_REFRESH_SECRET : string)
    (accessExpiresIn refreshExpiresIn now now' : Z) (I : Identity) :
  epoch now' < epoch now + accessExpiresIn ->
  epoch now' < epoch now + refreshExpiresIn ->
  let pair := generateTokens JWT_SECRET JWT_REFRESH_SECRET accessExpiresIn
                refreshExpiresIn now I in
  exists access refresh,
    verifyAccessToken JWT_SECRET now' pair.1 = JS.Normal access
    /\ verifyRefreshToken JWT_REFRESH_SECRET now' pair.2 = JS.Normal refresh
    /\ access !! "id" = Some (id I)
    /\ refresh !! "id" = Some (id I)
    /\ access !! "type" = Some (JS.Str "access")
    /\ refresh !! "type" = Some (JS.Str "refresh").
Proof.
  intros Haccess Hrefresh. cbn zeta. unfold generateTokens. cbn [fst snd].
  rewrite (verifyAccessToken_generate serialisation) by done.
  unfold generateRefreshToken, verifyRefreshToken.
  fold (refresh_claims (id I)).
  rewrite (jwt_verify_sign serialisation) by done.
  rewrite bool_decide_eq_true_2 by done.
  assert ((epoch now' >=? epoch now + refreshExpiresIn) = false) as ->
    by lia.
  cbn [bind try_catch]. rewrite signed_claims_other by done.
  eexists _, _. split; [reflexivity|]. split; [reflexivity|].
  by rewrite !signed_claims_other.
Qed.

(** The logger reads the user id from the bearer token without verifying
    it: for every well-formed token with a truthy [id] claim it reports
    that claim, also when the token is signed with another key and the
    Token Service refuses it. *)
Theorem logger_reads_unverified_id (JWT_SECRET : string) (now : Z)
    (request : Request) (token : string) (j : Jws) :
  bearer request token ->
  parse token = Some j ->
  JS.truthy (payload j !! "id") = true ->
  LoggerMiddleware.getUserIdFromRequest request = payload j !! "id"
  /\ (signature j <> Hmac JWT_SECRET (payload j) ->
      verifyAccessToken JWT_SECRET now token
      = JS.Throws (JS.mkError "Error" "Invalid token")).
Proof.
  intros Hbearer Hparse Hid.
  unfold LoggerMiddleware.getUserIdFromRequest.
  destruct (bearer_token _ _ Hbearer) as (h & -> & -> & ->).
  cbn [negb]. unfold decodeToken, jwt_decode. rewrite Hparse.
  cbn [fmap option_fmap option_map]. rewrite Hid. split; [done|].
  intros Hsig. unfold verifyAccessToken, jwt_verify. rewrite Hparse.
  unfold signature_valid. by rewrite bool_decide_eq_false_2.
Qed.

End TokenServiceMore.

(** ** The Edge Gate: which paths it guards, what it lets through *)

Section EdgeGateMore.
Import Http Tokens Edge.
Context `{Codec}.

(** A pattern text without [.] and [*]. *)
Fixpoint plain (lit : string) : bool :=
  match lit with
  | EmptyString => true
  | String c lit' =>
      negb (Ascii.eqb c "." || Ascii.eqb c "*") && plain lit'
  end.

Lemma regex_literal_prefix (lit path : string) :
  plain lit = true ->
  regex_test (RegExp (lit +:+ ".*")) path
  = JS.startsWith path lit
    && no_line_terminator (JS.substring_from (String.length lit) path).
Proof.
  revert path. induction lit as [|c lit IH]; intros path Hplain.
  - change (regex_test [(AnyChar, true)] path
            = true && no_line_terminator path).
    apply regex_dot_star.
  - cbn [plain] in Hplain. apply andb_true_iff in Hplain as [Hc Hlit].
    apply negb_true_iff, orb_false_iff in Hc as [Hdot Hstar].
    assert (RegExp (String c lit +:+ ".*")
            = (Lit c, false) :: RegExp (lit +:+ ".*")) as ->.
    { change (String c lit +:+ ".*") with (String c (lit +:+ ".*")).
      cbn [RegExp]. unfold atom_of. rewrite Hdot.
      destruct lit as [|c' lit']; [done|].
      change (String c' lit' +:+ ".*") with (String c' (lit' +:+ ".*")).
      cbn [plain] in Hlit. apply andb_true_iff in Hlit as [Hc' _].
      apply negb_true_iff, orb_false_iff in Hc' as [_ Hstar'].
      destruct c' as [[] [] [] [] [] [] [] []]; try done. }
    destruct path as [|b path]; [done|].
    cbn [regex_test JS.startsWith atom_matches String.length
         JS.substring_from].
    rewrite IH by done. by rewrite (Ascii.eqb_sym c b), andb_assoc.
Qed.

Lemma no_line_terminator_substring (n : nat) (path : string) :
  no_line_terminator path = true ->
  no_line_terminator (JS.substring_from n path) = true.
Proof.
  revert path. induction n as [|n IH]; intros path; [done|].
  destruct path as [|c path]; [done|]. cbn.
  intros [_ Hrest]%andb_true_iff. by apply IH.
Qed.

(** The route table, read as a classification of path names: a path is
    adminOnly exactly when it is [/api/users] or lies under [/api/users/],
    protected exactly when it is [/api/tasks] or lies under [/api/tasks/],
    and public otherwise; so [/api/usersX] or [/api/tasks.json] are
    public. *)
Theorem route_classification (path : string) :
  no_line_terminator path = true ->
  (getRouteType path = adminOnly
   <-> path = "/api/users" \/ JS.startsWith path "/api/users/" = true)
  /\ (getRouteType path = protected
      <-> path = "/api/tasks" \/ JS.startsWith path "/api/tasks/" = true).
Proof.
  intros Hpath.
  assert (matchesPattern path ROUTE_CONFIG_adminOnly
          = String.eqb path "/api/users"
            || JS.startsWith path "/api/users/") as Hadmin.
  { change (matchesPattern path ROUTE_CONFIG_adminOnly)
      with (String.eqb path "/api/users"
            || (regex_test (RegExp ("/api/users/" +:+ ".*")) path || false)).
    rewrite regex_literal_prefix, no_line_terminator_substring by done.
    by rewrite orb_false_r, andb_true_r. }
  assert (matchesPattern path ROUTE_CONFIG_protected
          = String.eqb path "/api/tasks"
            || JS.startsWith path "/api/tasks/") as Hprot.
  { change (matchesPattern path ROUTE_CONFIG_protected)
      with (String.eqb path "/api/tasks"
            || (regex_test (RegExp ("/api/tasks/" +:+ ".*")) path || false)).
    rewrite regex_literal_prefix, no_line_terminator_substring by done.
    by rewrite orb_false_r, andb_true_r. }
  assert (forall lit, JS.startsWith path lit = true ->
            exists rest, path = lit +:+ rest) as Hsplit.
  { intros lit Hlit. eexists. by apply startsWith_append. }
  unfold getRouteType. rewrite Hadmin, Hprot. split; split.
  - repeat case_match; try done; intros _.
    match goal with
    | Hm : (_ || _) = true |- _ =>
        apply orb_true_iff in Hm as [Heq%String.eqb_eq | Hpre]; auto
    end.
  - intros [-> | [rest ->]%Hsplit]; reflexivity.
  - repeat case_match; try done; intros _.
    match goal with
    | Hm : (String.eqb path "/api/tasks" || _) = true |- _ =>
        apply orb_true_iff in Hm as [Heq%String.eqb_eq | Hpre]; auto
    end.
  - intros [-> | [rest ->]%Hsplit]; reflexivity.
Qed.

(** On a route that is not public the Edge Gate answers 401 ['No token
    provided. Please login.'] when the authorization header is absent,
    empty or does not start with ['Bearer '], and 401 ['Invalid or expired
    token. Please login again.'], whatever the reason, when the Edge
    Verifier refuses the token. *)
Theorem edge_gate_refusals (JWT_SECRET : option string) (now : Z)
    (request : Request) :
  getRouteType (pathname request) <> public ->
  let authHeader := Headers_get (headers request) "authorization" in
  ((authHeader = None
    \/ exists v, authHeader = Some v /\ JS.startsWith v "Bearer " = false) ->
   middleware JWT_SECRET now request
   = errorResponse "No token provided. Please login." 401)
  /\ (forall token e,
        bearer request token ->
        verifyTokenEdge JWT_SECRET now token = JS.Rejects e ->
        middleware JWT_SECRET now request
        = errorResponse "Invalid or expired token. Please login again." 401).
Proof.
  intros Hroute. cbn zeta. unfold middleware.
  rewrite bool_decide_eq_false_2 by done. split.
  - intros [-> | (v & -> & Hv)]; [done|]. cbn [JS.truthy_string].
    destruct (String.eqb v EmptyString); [done|]. by rewrite Hv.
  - intros token e Hbearer Hrejected.
    destruct (bearer_token _ _ Hbearer) as (h & -> & -> & ->).
    cbn [negb]. by rewrite Hrejected.
Qed.

(** [String(v)] of a claim as [Headers.set] stores it. *)
Definition stored (v : option JS.Value) : option string :=
  v ≫= fun x => header_value (JS.String_ x).

Lemma set_if_stored (name : string) (v : option JS.Value)
    (h h' : gmap string string) :
  set_if name v h = Some h' ->
  if JS.truthy v
  then exists s, stored v = Some s /\ h' = Headers_set h name s
  else h' = h.
Proof.
  unfold set_if, stored. destruct v as [x|]; [|by intros [= <-]].
  destruct (JS.truthy (Some x)); [|by intros [= <-]].
  cbn [mbind option_bind].
  destruct (header_value (JS.String_ x)) as [s|]; [|done].
  intros [= <-]. by exists s.
Qed.

(** The Edge Gate lets a request through in two ways only: untouched, on
    a public route; or, on any other route, with a bearer token the Edge
    Verifier accepted whose role is ['Admin'] if the route is adminOnly or
    the request a DELETE under [/api/tasks/]. Then the forwarded
    [x-user-role] header is the role read from the claims, as [Headers]
    stores it, never the client's own; [x-user-id] and [x-user-email] are
    the claims when these are truthy and the client's own headers
    otherwise. *)
Theorem edge_gate_lets_through (JWT_SECRET : option string) (now : Z)
    (request : Request) (forwarded : option (gmap string string)) :
  middleware JWT_SECRET now request = NextResponse_next forwarded ->
  (getRouteType (pathname request) = public /\ forwarded = None)
  \/ exists token payload h,
       forwarded = Some h
       /\ getRouteType (pathname request) <> public
       /\ bearer request token
       /\ verifyTokenEdge JWT_SECRET now token = JS.Normal payload
       /\ (getRouteType (pathname request) = adminOnly
           \/ (method request = "DELETE"
               /\ JS.startsWith (pathname request) "/api/tasks/" = true) ->
           JS.strict_eq_str (decoded_role payload) "Admin" = true)
       /\ is_Some (Headers_get h "x-user-role")
       /\ Headers_get h "x-user-role" = stored (decoded_role payload)
       /\ (let uid := JS.or_else (payload !! "id") (payload !! "sub") in
           Headers_get h "x-user-id"
           = if JS.truthy uid then stored uid
             else Headers_get (headers request) "x-user-id")
       /\ Headers_get h "x-user-email"
          = if JS.truthy (payload !! "email")
            then stored (payload !! "email")
            else Headers_get (headers request) "x-user-email".
Proof.
  unfold middleware.
  case_bool_decide as Hroute; [intros [= <-]; by left|].
  destruct (JS.truthy_string (Headers_get (headers request) "authorization"))
    as [h|] eqn:Hheader; [|done].
  destruct (JS.startsWith h "Bearer ") eqn:Hprefix; [|done]. cbn [negb].
  destruct (verifyTokenEdge JWT_SECRET now (JS.substring_from 7 h))
    as [payload| |] eqn:Hverify; [|done|done].
  destruct (bool_decide (getRouteType (pathname request) = adminOnly)
            && negb (JS.strict_eq_str (decoded_role payload) "Admin"))
    eqn:Hadmin; [done|].
  destruct (String.eqb (method request) "DELETE"
            && JS.startsWith (pathname request) "/api/tasks/"
            && negb (JS.strict_eq_str (decoded_role payload) "Admin"))
    eqn:Hdelete; [done|].
  destruct (set_if "x-user-id"
              (JS.or_else (payload !! "id") (payload !! "sub"))
              (headers request)) as [h1|] eqn:Hid;
    cbn [mbind option_bind]; [|done].
  destruct (set_if "x-user-email" (payload !! "email") h1) as [h2|]
    eqn:Hemail; cbn [mbind option_bind]; [|done].
  destruct (set_if "x-user-role" (decoded_role payload) h2) as [h3|]
    eqn:Hrole; [|done].
  intros [= <-]. right.
  exists (JS.substring_from 7 h), payload, h3.
  split; [reflexivity|]. split; [done|]. split.
  { unfold bearer. unfold JS.truthy_string in Hheader.
    destruct (Headers_get (headers request) "authorization") as [v|];
      [|done].
    destruct (String.eqb v EmptyString); [done|]. injection Hheader as ->.
    f_equal. exact (startsWith_append h "Bearer " Hprefix). }
  split; [done|]. split.
  { intros [Hr | [Hm Hp]].
    - rewrite bool_decide_eq_true_2 in Hadmin by done.
      by destruct (JS.strict_eq_str (decoded_role payload) "Admin").
    - rewrite Hm, Hp in Hdelete.
      by destruct (JS.strict_eq_str (decoded_role payload) "Admin"). }
  assert (JS.truthy (decoded_role payload) = true) as Hrt.
  { unfold decoded_role, JS.or_else.
    destruct (JS.truthy (JS.or_else (payload !! "role") (payload !! "roles")))
      eqn:Ht; unfold JS.or_else in Ht; by rewrite Ht. }
  apply set_if_stored in Hid, Hemail, Hrole.
  rewrite Hrt in Hrole. destruct Hrole as (r & Hr & ->).
  cbn zeta. rewrite Hr.
  destruct (JS.truthy (JS.or_else (payload !! "id") (payload !! "sub")));
    [destruct Hid as (i & -> & ->) | subst h1];
    (destruct (JS.truthy (payload !! "email"));
     [destruct Hemail as (e & -> & ->) | subst h2]);
    unfold Headers_get, Headers_set;
    change (JS.toLowerCase "x-user-role") with "x-user-role";
    change (JS.toLowerCase "x-user-id") with "x-user-id";
    change (JS.toLowerCase "x-user-email") with "x-user-email";
    rewrite lookup_insert_eq;
    (split; [by eexists|]); (split; [done|]);
    rewrite !(lookup_insert_ne _ "x-user-role") by done;
    split;
    repeat first [ rewrite lookup_insert_eq
                 | rewrite lookup_insert_ne by done ];
    done.
Qed.

End EdgeGateMore.

(** ** The Authentication Gate and its helpers: who reaches a handler *)

Section AuthenticationMore.
Import Http Tokens Auth AuthHelpers.
Context `{Codec}.
Variable JWT_SECRET : string.
Variable findUnique : option JS.Value -> Lookup.

(** What [withAuth] has established when it calls the handler. *)
Definition authenticated (now : Z) (request : Request)
    (roles : option (list string)) (r : Request) : Prop :=
  exists token decoded u,
    bearer request token /\ token <> EmptyString
    /\ Jwt.verifyAccessToken JWT_SECRET now token = JS.Normal decoded
    /\ findUnique (decoded !! "id") = Found u
    /\ role_allowed roles u
    /\ r = attach_user request u.

Local Ltac refused :=
  left; split; [reflexivity|];
  eexists _, _; split; [reflexivity | auto].

Lemma withAuth_cases (now : Z) (request : Request) (handler : Handler)
    (roles : option (list string)) :
  let run := withAuth JWT_SECRET findUnique now request handler roles in
  (handler_calls run = []
   /\ exists message code,
        completion run
        = JS.Normal (Response.errorResponse message code None)
        /\ (code = 401 \/ code = 403))
  \/ exists r,
       authenticated now request roles r
       /\ run = mkRun (handled handler r) [r].
Proof.
  cbn zeta. unfold withAuth.
  destruct (JS.truthy_string
              (Jwt.extractTokenFromHeader
                 (Headers_get (headers request) "authorization")))
    as [token|] eqn:Htoken; [|refused].
  destruct (Jwt.verifyAccessToken JWT_SECRET now token)
    as [decoded|e|e] eqn:Hverify; [|refused ..].
  destruct (findUnique (decoded !! "id")) as [u| |e] eqn:Hfind;
    [|refused ..].
  match goal with
  | |- context [if ?b then _ else _] => destruct b eqn:Hdenied
  end; [refused|].
  right. exists (attach_user request u). split.
  - exists token, decoded, u.
    destruct (Jwt.extractTokenFromHeader
                (Headers_get (headers request) "authorization"))
      as [t|] eqn:Hextract; [|done].
    apply extract_bearer in Hextract.
    cbn in Htoken. destruct (String.eqb_spec t EmptyString); [done|].
    injection Htoken as ->.
    repeat split; try done. by apply denied_iff.
  - unfold handled. by destruct (handler (attach_user request u)).
Qed.

(** [withAuth] calls the handler at most once, and only for a request
    with a bearer token that [verifyAccessToken] accepted, whose subject
    the identity store knows and whose stored role passes the role set;
    the handler then sees the stored identity, not the token's claims. *)
Theorem withAuth_calls_handler_only_authenticated (now : Z)
    (request : Request) (handler : Handler) (roles : option (list string))
    (r : Request) :
  r ∈ handler_calls (withAuth JWT_SECRET findUnique now request handler roles)
  ->
  handler_calls (withAuth JWT_SECRET findUnique now request handler roles)
  = [r]
  /\ authenticated now request roles r.
Proof.
  destruct (withAuth_cases now request handler roles)
    as [[-> _] | (r' & Hauth & ->)]; cbn [handler_calls].
  - by intros ?%elem_of_nil.
  - by intros ->%list_elem_of_singleton.
Qed.

(** Under [requireAdmin] a handler sees only requests whose attached
    identity has the role ['Admin'], under [requireUser] only ['User'] or
    ['Admin'], under [createRoleMiddleware(allowedRoles)] with a non-empty
    list only a listed role; with the empty list every authenticated
    identity passes. *)
Theorem role_gates_admit_listed_roles (now : Z) (request : Request)
    (handler : Handler) (r : Request) :
  (r ∈ handler_calls (requireAdmin JWT_SECRET findUnique now request handler)
   -> exists u, user r = Some u /\ user_role u = "Admin")
  /\ (r ∈ handler_calls
            (requireUser JWT_SECRET findUnique now request handler)
      -> exists u, user r = Some u
                   /\ (user_role u = "User" \/ user_role u = "Admin"))
  /\ (forall allowedRoles,
        r ∈ handler_calls
              (createRoleMiddleware JWT_SECRET findUnique allowedRoles now
                 request handler)
        -> exists u, user r = Some u
                     /\ (allowedRoles = [] \/ user_role u ∈ allowedRoles)).
Proof.
  assert (forall roles,
            r ∈ handler_calls
                  (withAuth JWT_SECRET findUnique now request handler roles)
            -> exists u, user r = Some u /\ role_allowed roles u) as Hgate.
  { intros roles Hr.
    destruct (withAuth_cases now request handler roles)
      as [[Hnone _] | (r' & Hauth & Hrun)].
    - rewrite Hnone in Hr. by apply elem_of_nil in Hr.
    - rewrite Hrun in Hr. cbn [handler_calls] in Hr.
      apply list_elem_of_singleton in Hr as ->.
      destruct Hauth as (token & decoded & u & _ & _ & _ & _ & Hrole & ->).
      by exists u. }
  unfold requireAdmin, requireUser, createRoleMiddleware.
  split; [|split].
  - intros (u & Hu & [|Hin])%Hgate; [done|].
    exists u. split; [done|]. by apply list_elem_of_singleton in Hin.
  - intros (u & Hu & [|Hin])%Hgate; [done|].
    exists u. split; [done|].
    apply elem_of_cons in Hin as [? | ?%list_elem_of_singleton]; auto.
  - intros allowedRoles (u & Hu & Hrole)%Hgate. by exists u.
Qed.

(** When [withAuth] does not call the handler it resolves with an error
    envelope of status 401 or 403 and no details; it rejects only with a
    rejection of the handler itself, and never throws. *)
Theorem withAuth_refuses_with_envelope (now : Z) (request : Request)
    (handler : Handler) (roles : option (list string)) :
  let run := withAuth JWT_SECRET findUnique now request handler roles in
  (handler_calls run = [] ->
   exists message code,
     completion run = JS.Normal (Response.errorResponse message code None)
     /\ (code = 401 \/ code = 403))
  /\ (forall e, completion run = JS.Rejects e ->
        exists r, handler_calls run = [r] /\ handler r = JS.Rejects e)
  /\ (forall e, completion run <> JS.Throws e).
Proof.
  cbn zeta.
  destruct (withAuth_cases now request handler roles)
    as [[Hnone (message & code & Hc & Hcode)] | (r & Hauth & ->)].
  - rewrite Hnone, Hc. repeat split; [by eauto|done|done].
  - cbn [handler_calls completion]. unfold handled. repeat split.
    + done.
    + intros e He. exists r. split; [done|].
      by destruct (handler r) as [| |e']; [| |injection He as ->].
    + intros e. by destruct (handler r).
Qed.

(** [withOptionalAuth] never refuses: it calls the handler exactly once
    and returns what the handler does. It attaches the stored identity
    to the request when the request carries a bearer token that
    [verifyAccessToken] accepts and whose subject the store knows, and
    passes the request on unchanged in every other case: without a
    bearer token, with a token that is refused, and with a subject the
    store does not find or fails on. *)
Theorem withOptionalAuth_never_refuses (now : Z) (request : Request)
    (handler : Handler) :
  let run := withOptionalAuth JWT_SECRET findUnique now request handler in
  exists r,
    run = mkRun (RateLimit.async_return (handler r)) [r]
    /\ (forall token decoded u,
          bearer request token -> token <> EmptyString ->
          Jwt.verifyAccessToken JWT_SECRET now token = JS.Normal decoded ->
          findUnique (decoded !! "id") = Found u ->
          r = attach_user request u)
    /\ (r = request
        \/ exists token decoded u,
             bearer request token
             /\ Jwt.verifyAccessToken JWT_SECRET now token
                = JS.Normal decoded
             /\ findUnique (decoded !! "id") = Found u
             /\ r = attach_user request u)
    /\ (no_bearer_token (Headers_get (headers request) "authorization") ->
        r = request)
    /\ (forall token,
          bearer request token ->
          (forall decoded u,
             Jwt.verifyAccessToken JWT_SECRET now token = JS.Normal decoded ->
             findUnique (decoded !! "id") <> Found u) ->
          r = request)
    /\ ((forall decoded, exists e, findUnique decoded = LookupFails e) ->
        r = request).
Proof.
  cbn zeta. unfold withOptionalAuth, getUserFromRequest.
  eexists. split; [reflexivity|].
  destruct (JS.truthy_string
              (Jwt.extractTokenFromHeader
                 (Headers_get (headers request) "authorization")))
    as [token|] eqn:Htoken.
  - assert (bearer request token /\ token <> EmptyString) as [Hbearer Hne].
    { destruct (Jwt.extractTokenFromHeader
                  (Headers_get (headers request) "authorization"))
        as [t|] eqn:Hextract; [|done].
      apply extract_bearer in Hextract. cbn in Htoken.
      destruct (String.eqb_spec t EmptyString); [done|].
      by injection Htoken as <-. }
    assert (forall token', bearer request token' -> token' = token)
      as Hunique.
    { intros token' Hb. unfold bearer in Hb, Hbearer.
      rewrite Hb in Hbearer. by simplify_eq. }
    assert (no_bearer_token (Headers_get (headers request) "authorization")
            -> False) as Hsome.
    { intros Hno. apply extract_no_token in Hno. by rewrite Hno in Htoken. }
    destruct (Jwt.verifyAccessToken JWT_SECRET now token)
      as [decoded|e|e] eqn:Hverify;
      [destruct (findUnique (decoded !! "id")) as [u| |e] eqn:Hfind|..].
    + split; [|split; [|split; [|split]]].
      * intros token' decoded' u' Hb _ Hv Hf.
        rewrite (Hunique _ Hb), Hverify in Hv. injection Hv as <-.
        rewrite Hfind in Hf. by injection Hf as <-.
      * right. by exists token, decoded, u.
      * intros Hno. destruct (Hsome Hno).
      * intros token' Hb Hnone. rewrite (Hunique _ Hb) in Hnone.
        destruct (Hnone decoded u Hverify Hfind).
      * intros Hfails. destruct (Hfails (decoded !! "id")) as [e He].
        by rewrite He in Hfind.
    + split; [|by repeat split; try left].
      intros token' decoded' u' Hb _ Hv Hf.
      rewrite (Hunique _ Hb), Hverify in Hv. injection Hv as <-.
      by rewrite Hfind in Hf.
    + split; [|by repeat split; try left].
      intros token' decoded' u' Hb _ Hv Hf.
      rewrite (Hunique _ Hb), Hverify in Hv. injection Hv as <-.
      by rewrite Hfind in Hf.
    + split; [|by repeat split; try left].
      intros token' decoded' u' Hb _ Hv Hf.
      by rewrite (Hunique _ Hb), Hverify in Hv.
    + split; [|by repeat split; try left].
      intros token' decoded' u' Hb _ Hv Hf.
      by rewrite (Hunique _ Hb), Hverify in Hv.
  - split; [|by repeat split; try left].
    intros token decoded u Hb Hne _ _.
    by rewrite (extract_token _ _ Hb Hne) in Htoken.
Qed.

End AuthenticationMore.

(** ** Ownership, and the failure boundary *)

Section OwnershipAndBoundary.
Import Http Auth AuthHelpers ResponseBoundary.

(** [checkOwnership] calls the handler, at most once and with the
    request as it is, only for an administrator or for the owner of the
    resource: the attached identity has the role ['Admin'], or its id is
    the truthy owner id the lookup returned, which is when
    [isOwnerOrAdmin] holds. *)
Theorem checkOwnership_calls_handler_only_for_owner_or_admin
    (request : Request) (handler : Handler)
    (getResourceUserId : JS.Completion (option JS.Value)) (r : Request) :
  r ∈ handler_calls (checkOwnership request handler getResourceUserId) ->
  handler_calls (checkOwnership request handler getResourceUserId)
  = [request]
  /\ r = request
  /\ exists u,
       user request = Some u
       /\ (user_role u = "Admin"
           \/ exists rid,
                getResourceUserId = JS.Normal (Some rid)
                /\ JS.truthy (Some rid) = true
                /\ user_id u = rid
                /\ isOwnerOrAdmin u rid = true).
Proof.
  unfold checkOwnership.
  assert (forall u : User,
            r ∈ handler_calls
                  match handler request with
                  | JS.Normal response => mkRun (JS.Normal response) [request]
                  | JS.Throws _ =>
                      mkRun (JS.Normal
                               (Response.forbiddenResponse "Access denied"))
                            [request]
                  | JS.Rejects e => mkRun (JS.Rejects e) [request]
                  end ->
            handler_calls
              match handler request with
              | JS.Normal response => mkRun (JS.Normal response) [request]
              | JS.Throws _ =>
                  mkRun (JS.Normal
                           (Response.forbiddenResponse "Access denied"))
                        [request]
              | JS.Rejects e => mkRun (JS.Rejects e) [request]
              end = [request] /\ r = request) as Hcall.
  { intros _. destruct (handler request); cbn [handler_calls];
      by intros ->%list_elem_of_singleton. }
  destruct (user request) as [u|]; [|by intros ?%elem_of_nil].
  destruct (String.eqb_spec (user_role u) "Admin") as [Hadmin|Hother].
  - intros [Hcalls ->]%(Hcall u). repeat split; [done|]. exists u. by auto.
  - destruct getResourceUserId as [[rid|]| |];
      [|by intros ?%elem_of_nil ..].
    destruct (JS.truthy (Some rid)) eqn:Htruthy;
      [|by intros ?%elem_of_nil].
    cbn [negb].
    destruct (strict_eq (user_id u) rid) eqn:Hsame;
      [|by intros ?%elem_of_nil].
    cbn [negb]. intros [Hcalls ->]%(Hcall u). repeat split; [done|].
    exists u. split; [done|]. right. exists rid. repeat split; [done| |].
    + unfold strict_eq in Hsame.
      destruct (user_id u) as [p| |], rid as [q| |]; try done.
      by apply bool_decide_eq_true in Hsame as ->.
    + unfold isOwnerOrAdmin. rewrite Hsame. apply orb_true_r.
Qed.

(** The edges of [checkOwnership]: an administrator's request goes to
    the handler whatever the owner lookup would do (it is not run); a
    request without an attached identity gets 403 ['Access denied']; a
    resource whose owner id is falsy (absent, [0] or the empty string)
    gets 401 ['Resource not found'], and a failing lookup 403 ['Access
    denied'], for everybody but an administrator. *)
Theorem checkOwnership_edges (request : Request) (handler : Handler)
    (getResourceUserId : JS.Completion (option JS.Value)) :
  (forall u lookup',
     user request = Some u -> user_role u = "Admin" ->
     checkOwnership request handler getResourceUserId
     = checkOwnership request handler lookup')
  /\ (user request = None ->
      checkOwnership request handler getResourceUserId
      = mkRun (JS.Normal (Response.errorResponse "Access denied" 403 None))
              [])
  /\ (forall u,
        user request = Some u -> user_role u <> "Admin" ->
        (forall rid, getResourceUserId = JS.Normal rid ->
                     JS.truthy rid = false ->
           checkOwnership request handler getResourceUserId
           = mkRun (JS.Normal (Response.errorResponse
                                 "Resource not found" 401 None)) [])
        /\ (forall e,
              getResourceUserId = JS.Throws e
              \/ getResourceUserId = JS.Rejects e ->
              checkOwnership request handler getResourceUserId
              = mkRun (JS.Normal (Response.errorResponse
                                    "Access denied" 403 None)) [])).
Proof.
  unfold checkOwnership. split; [|split].
  - intros u lookup' -> ->. done.
  - by intros ->.
  - intros u -> Hother.
    destruct (String.eqb_spec (user_role u) "Admin"); [done|]. split.
    + intros rid -> Hfalsy. destruct rid as [rid|]; [|done].
      by rewrite Hfalsy.
    + by intros e [-> | ->].
Qed.

(** [handleAsync] turns every failure of a handler into a response: it
    always resolves, a failure gives status 500, and the message sent is
    the fixed ['An unexpected error occurred'] in production, the error's
    own message (if not empty) under every other [NODE_ENV]. *)
Theorem handleAsync_boundary (NODE_ENV : option string) (handler : Handler)
    (request : Request) :
  (exists response, handleAsync NODE_ENV handler request = JS.Normal response)
  /\ (forall response, handler request = JS.Normal response ->
        handleAsync NODE_ENV handler request = JS.Normal response)
  /\ (forall e, handler request = JS.Throws e \/ handler request = JS.Rejects e
        ->
        exists message,
          handleAsync NODE_ENV handler request
          = JS.Normal (Response.errorResponse message 500 None)
          /\ (NODE_ENV = Some "production" ->
              message = "An unexpected error occurred")
          /\ (NODE_ENV <> Some "production" ->
              message = if String.eqb (JS.message e) EmptyString
                        then "An unexpected error occurred"
                        else JS.message e)).
Proof.
  unfold handleAsync. split; [|split].
  - destruct (handler request); by eexists.
  - by intros response ->.
  - intros e He.
    assert (match handler request with
            | JS.Normal response => JS.Normal response
            | JS.Throws error | JS.Rejects error =>
                JS.Normal (internalServerErrorResponse NODE_ENV
                             "An unexpected error occurred" (Some error))
            end
            = JS.Normal (internalServerErrorResponse NODE_ENV
                           "An unexpected error occurred" (Some e))) as ->
      by (by destruct He as [-> | ->]).
    unfold internalServerErrorResponse. eexists. split; [reflexivity|].
    split.
    + by intros ->.
    + intros Hdev.
      assert (match NODE_ENV with
              | Some env => String.eqb env "production"
              | None => false
              end = false) as ->.
      { destruct NODE_ENV as [env|]; [|done].
        destruct (String.eqb_spec env "production"); [|done]. congruence. }
      cbn. by destruct (String.eqb (JS.message e) EmptyString).
Qed.

End OwnershipAndBoundary.

(** ** The routes: the governor in front of the gate *)

Section RouteStacks.
Import Http Tokens RateLimit Routes.




(** A request without a bearer token that the governor admits still
    spends quota: the gate's 401 comes back carrying the rate-limit
    headers, and the key's count has grown by one. *)
Theorem unauthenticated_request_spends_quota `{Codec}
    (JWT_SECRET : string) (MAX W now now_retry now_auth : Z)
    (NODE_ENV : option string) (findUnique : option JS.Value -> Auth.Lookup)
    (roles : option (list string)) (request : Request) (handler : Handler)
    (store : gmap string Entry) (d : Entry) :
  development NODE_ENV && loopback (getClientIP request) = false ->
  store !! getClientIP request = Some d ->
  now <= resetTime d ->
  count d < MAX ->
  no_bearer_token (Headers_get (headers request) "authorization") ->
  let result :=
    guarded JWT_SECRET MAX W NODE_ENV findUnique roles now now_retry
      now_auth request handler store in
  exists response,
    result.1 = JS.Normal response
    /\ status response = 401
    /\ body response
       = ErrorEnvelope false "No token provided. Please login." 401 None
    /\ Headers_get (response_headers response) "X-RateLimit-Limit"
       = Some (JS.toString MAX)
    /\ Headers_get (response_headers response) "X-RateLimit-Remaining"
       = Some (JS.toString (MAX - (count d + 1)))
    /\ result.2 !! getClientIP request
       = Some {| count := count d + 1; resetTime := resetTime d |}.
Proof.
  intros Hgoverned Hd Hlive Hroom Hnone. cbn zeta.
  unfold guarded, LoggerMiddleware.withLogging, withRateLimit.
  rewrite Hgoverned.
  rewrite (checkRateLimit_live MAX W now _ store d Hd Hlive).
  assert ((count d <? MAX) = true) as -> by lia.
  cbn [negb allowed remaining limit decision_resetTime count].
  unfold Auth.withAuth. rewrite (extract_no_token _ Hnone).
  cbn [Auth.completion async_return fst snd].
  eexists. split; [reflexivity|].
  cbn [status body response_headers Response.unauthorizedResponse
       Response.errorResponse Response.NextResponse_json JS.truthy].
  unfold Headers_get, Headers_set.
  rewrite lower_limit, lower_remaining, lower_reset.
  replace (Z.max 0 (MAX - (count d + 1))) with (MAX - (count d + 1)) by lia.
  repeat split. apply lookup_insert_eq.
Qed.



End RouteStacks.

(** ** The further properties at concrete requests *)

Section MoreExamples.
Import Http Tokens.

Definition no_conversion : string -> option Z := fun _ => None.

Definition alice_refresh_token : string :=
  Jwt.generateRefreshToken example_refresh_secret 604800 t_issue (JS.Num 7).

Lemma refresh_token_round_trip_witness :
  (exists claims,
      Jwt.verifyRefreshToken example_refresh_secret t_use alice_refresh_token
      = JS.Normal claims
      /\ claims !! "id" = Some (JS.Num 7)
      /\ claims !! "type" = Some (JS.Str "refresh")
      /\ claims !! "email" = None
      /\ claims !! "role" = None)
  /\ Jwt.verifyAccessToken example_secret t_use alice_refresh_token
     = JS.Throws (JS.mkError "Error" "Invalid token").
Proof.
  apply (refresh_token_round_trip wire_sound example_secret
           example_refresh_secret 604800 t_issue t_use (JS.Num 7)).
  vm_compute. reflexivity.
Defined.

Lemma verifyAccessToken_accepts_only_witness :
  exists j,
    parse alice_access_token = Some j
    /\ alice_claims = payload j
    /\ signature j = Hmac example_secret alice_claims
    /\ JS.strict_eq_str (alice_claims !! "type") "access" = true
    /\ JS.strict_eq_str (alice_claims !! "iss") "todo-api" = true
    /\ audience_matches (alice_claims !! "aud") "todo-app" = true
    /\ (forall v, alice_claims !! "exp" = Some v ->
          exists n, v = JS.Num n /\ epoch t_use < n)
    /\ (forall v, alice_claims !! "nbf" = Some v ->
          exists n, v = JS.Num n /\ n <= epoch t_use).
Proof.
  apply (verifyAccessToken_accepts_only example_secret t_use
           alice_access_token alice_claims).
  exact alice_access_token_verifies.
Defined.

Lemma expiry_helpers_against_verifier_witness :
  JwtExpiry.getTokenExpiration no_conversion alice_access_token
  = Some (JwtExpiry.new_Date (Some ((epoch t_issue + 900) * 1000)))
  /\ JwtExpiry.isTokenExpired no_conversion t_late alice_access_token
     = ((epoch t_issue + 900) * 1000 <? t_late)
  /\ (Jwt.verifyAccessToken example_secret t_late alice_access_token
      = JS.Throws (JS.mkError "Error" "Token has expired")
      <-> (epoch t_issue + 900) * 1000 <= t_late).
Proof.
  apply (expiry_helpers_against_verifier wire_sound no_conversion
           example_secret 900 t_issue t_late alice).
  vm_compute. discriminate.
Defined.

(** A token of kind access, signed with the access secret, that carries
    no [exp] claim. *)
Definition undated_jws : Jws :=
  let claims : Claims :=
    {[ "id" := JS.Num 7; "type" := JS.Str "access";
       "iss" := JS.Str "todo-api"; "aud" := JS.Str "todo-app" ]} in
  {| payload := claims; signature := Hmac example_secret claims |}.

Lemma token_without_exp_witness :
  Jwt.verifyAccessToken example_secret t_late (serialize undated_jws)
  = JS.Normal (payload undated_jws)
  /\ JwtExpiry.isTokenExpired no_conversion t_late (serialize undated_jws)
     = true
  /\ JwtExpiry.getTokenExpiration no_conversion (serialize undated_jws)
     = None.
Proof.
  apply (token_without_exp no_conversion example_secret t_late
           (serialize undated_jws)).
  - apply wire_sound.
  - reflexivity.
  - reflexivity.
  - reflexivity.
  - reflexivity.
  - reflexivity.
  - reflexivity.
Defined.

Lemma edge_accepts_what_service_accepts_witness :
  (Jwt.verifyAccessToken example_secret t_late (serialize undated_jws)
   = JS.Normal (payload undated_jws)
   /\ (payload undated_jws !! "iat" = None
       \/ exists n, payload undated_jws !! "iat" = Some (JS.Num n)))
  <-> (Edge.verifyTokenEdge (Some example_secret) t_late
         (serialize undated_jws)
       = JS.Normal (payload undated_jws)
       /\ JS.strict_eq_str (payload undated_jws !! "type") "access" = true
       /\ JS.strict_eq_str (payload undated_jws !! "iss") "todo-api" = true
       /\ audience_matches (payload undated_jws !! "aud") "todo-app"
          = true).
Proof.
  apply (edge_accepts_what_service_accepts wire_sound example_secret t_late
           undated_jws (payload undated_jws)).
  discriminate.
Defined.

Lemma verifyTokenEdge_accepts_only_witness :
  exists j,
    parse alice_access_token = Some j
    /\ alice_claims = payload j
    /\ signature j = Hmac example_secret alice_claims
    /\ (forall v, alice_claims !! "exp" = Some v ->
          exists n, v = JS.Num n /\ epoch t_use < n)
    /\ (forall v, alice_claims !! "nbf" = Some v ->
          exists n, v = JS.Num n /\ n <= epoch t_use)
    /\ (forall v, alice_claims !! "iat" = Some v -> exists n, v = JS.Num n).
Proof.
  apply (verifyTokenEdge_accepts_only example_secret t_use
           alice_access_token alice_claims).
  exact alice_access_token_verifies_at_edge.
Defined.

Lemma token_pair_round_trip_witness :
  let pair := Jwt.generateTokens example_secret example_refresh_secret 900
                604800 t_issue alice in
  exists access refresh,
    Jwt.verifyAccessToken example_secret t_use pair.1 = JS.Normal access
    /\ Jwt.verifyRefreshToken example_refresh_secret t_use pair.2
       = JS.Normal refresh
    /\ access !! "id" = Some (JS.Num 7)
    /\ refresh !! "id" = Some (JS.Num 7)
    /\ access !! "type" = Some (JS.Str "access")
    /\ refresh !! "type" = Some (JS.Str "refresh").
Proof.
  apply (token_pair_round_trip wire_sound example_secret
           example_refresh_secret 900 604800 t_issue t_use alice).
  - vm_compute. reflexivity.
  - vm_compute. reflexivity.
Defined.

(** Alice's claims under a signature segment that is no HMAC. *)
Definition forged_jws : Jws :=
  {| payload := alice_claims; signature := Junk "forged" |}.

Lemma verifyAccessToken_failures_witness :
  Jwt.verifyAccessToken example_secret t_use (serialize forged_jws)
  = JS.Throws (JS.mkError "Error" "Invalid token")
  /\ Jwt.verifyAccessToken example_secret t_use "not-a-token"
     = JS.Throws (JS.mkError "Error" "Invalid token").
Proof.
  destruct (verifyAccessToken_failures example_secret t_use
              (serialize forged_jws)) as (_ & Hparsed & _).
  destruct (verifyAccessToken_failures example_secret t_use "not-a-token")
    as (_ & _ & Hunparsed).
  split.
  - apply (Hparsed forged_jws); [apply wire_sound | reflexivity].
  - apply Hunparsed; reflexivity.
Defined.

Lemma logger_reads_unverified_id_witness :
  let request := with_bearer "GET" "/api/tasks" (serialize forged_jws) in
  LoggerMiddleware.getUserIdFromRequest request = Some (JS.Num 7)
  /\ Jwt.verifyAccessToken example_secret t_use (serialize forged_jws)
     = JS.Throws (JS.mkError "Error" "Invalid token").
Proof.
  intros request.
  destruct (logger_reads_unverified_id example_secret t_use request
              (serialize forged_jws) forged_jws) as [Hid Hrefused].
  - reflexivity.
  - apply wire_sound.
  - reflexivity.
  - split; [exact Hid|]. apply Hrefused. discriminate.
Defined.

Lemma route_classification_witness :
  (Edge.getRouteType "/api/usersX" = Edge.adminOnly
   <-> "/api/usersX" = "/api/users"
       \/ JS.startsWith "/api/usersX" "/api/users/" = true)
  /\ (Edge.getRouteType "/api/usersX" = Edge.protected
      <-> "/api/usersX" = "/api/tasks"
          \/ JS.startsWith "/api/usersX" "/api/tasks/" = true).
Proof.
  apply (route_classification "/api/usersX"). reflexivity.
Defined.

Lemma edge_gate_refusals_witness :
  Edge.middleware (Some example_secret) t_use
    (mkRequest "GET" "/api/tasks" {[ "authorization" := "Basic abc" ]} None)
  = Edge.errorResponse "No token provided. Please login." 401.
Proof.
  apply (edge_gate_refusals (Some example_secret) t_use
           (mkRequest "GET" "/api/tasks"
              {[ "authorization" := "Basic abc" ]} None)).
  - discriminate.
  - right. exists "Basic abc". split; reflexivity.
Defined.

Definition alice_get_tasks : Request :=
  with_bearer "GET" "/api/tasks" alice_access_token.

Lemma alice_bearer : bearer alice_get_tasks alice_access_token.
Proof. reflexivity. Qed.

Lemma alice_passes_edge :
  exists h,
    Edge.middleware (Some example_secret) t_use alice_get_tasks
    = Edge.NextResponse_next (Some h).
Proof.
  unfold Edge.middleware.
  change (Edge.getRouteType (pathname alice_get_tasks)) with Edge.protected.
  rewrite bool_decide_eq_false_2 by done.
  destruct (bearer_token _ _ alice_bearer) as (h & -> & -> & ->).
  cbn [negb]. rewrite alice_access_token_verifies_at_edge.
  rewrite bool_decide_eq_false_2 by done. cbn [andb].
  change (String.eqb (method alice_get_tasks) "DELETE") with false.
  cbn [andb]. by eexists.
Qed.

Lemma bearer_unique (request : Request) (t1 t2 : string) :
  bearer request t1 -> bearer request t2 -> t1 = t2.
Proof.
  unfold bearer. intros -> [= Heq]. by simplify_eq.
Qed.

Lemma edge_gate_lets_through_witness :
  exists h,
    Edge.middleware (Some example_secret) t_use alice_get_tasks
    = Edge.NextResponse_next (Some h)
    /\ Headers_get h "x-user-role" = Some "User"
    /\ Headers_get h "x-user-id" = Some "7".
Proof.
  destruct alice_passes_edge as [h Hpass]. exists h. split; [exact Hpass|].
  destruct (edge_gate_lets_through (Some example_secret) t_use
              alice_get_tasks (Some h) Hpass)
    as [[_ Hnone] | (token & claims & h' & Hh & _ & Hbearer & Hverify & _
                     & _ & Hrole & Hid & _)].
  - discriminate Hnone.
  - injection Hh as <-.
    rewrite <- (bearer_unique _ _ _ alice_bearer Hbearer) in Hverify.
    rewrite alice_access_token_verifies_at_edge in Hverify.
    injection Hverify as <-.
    split; [exact Hrole | exact Hid].
Defined.

Definition find_alice : option JS.Value -> Auth.Lookup :=
  fun _ => Auth.Found alice_record.

Lemma alice_reaches_handler (roles : option (list string)) :
  role_allowed roles alice_record ->
  Auth.withAuth example_secret find_alice t_use alice_get_tasks ok_handler
    roles
  = Auth.mkRun (handled ok_handler (Auth.attach_user alice_get_tasks
                                      alice_record))
               [Auth.attach_user alice_get_tasks alice_record].
Proof.
  intros Hallowed. unfold Auth.withAuth.
  rewrite (extract_token _ _ alice_bearer alice_access_token_not_empty).
  rewrite alice_access_token_verifies.
  cbn [find_alice]. apply denied_iff in Hallowed. by rewrite Hallowed.
Qed.

Lemma withAuth_calls_handler_only_authenticated_witness :
  let r := Auth.attach_user alice_get_tasks alice_record in
  Auth.handler_calls
    (Auth.withAuth example_secret find_alice t_use alice_get_tasks
       ok_handler None)
  = [r]
  /\ authenticated example_secret find_alice t_use alice_get_tasks None r.
Proof.
  intros r.
  apply (withAuth_calls_handler_only_authenticated example_secret
           find_alice t_use alice_get_tasks ok_handler None r).
  rewrite (alice_reaches_handler None I). apply list_elem_of_here.
Defined.

Lemma role_gates_admit_listed_roles_witness :
  exists u,
    user (Auth.attach_user alice_get_tasks alice_record) = Some u
    /\ (user_role u = "User" \/ user_role u = "Admin").
Proof.
  apply (role_gates_admit_listed_roles example_secret find_alice t_use
           alice_get_tasks ok_handler
           (Auth.attach_user alice_get_tasks alice_record)).
  unfold Auth.requireUser.
  rewrite (alice_reaches_handler (Some ["User"; "Admin"])).
  - apply list_elem_of_here.
  - right. apply list_elem_of_here.
Defined.

Lemma withAuth_refuses_with_envelope_witness :
  exists message code,
    Auth.completion
      (Auth.withAuth example_secret find_alice t_use
         (mkRequest "GET" "/api/tasks" ∅ None) ok_handler None)
    = JS.Normal (Response.errorResponse message code None)
    /\ (code = 401 \/ code = 403).
Proof.
  apply (withAuth_refuses_with_envelope example_secret find_alice t_use
           (mkRequest "GET" "/api/tasks" ∅ None) ok_handler None).
  reflexivity.
Defined.

Lemma withOptionalAuth_never_refuses_witness :
  exists r,
    AuthHelpers.withOptionalAuth example_secret find_alice t_use
      alice_get_tasks ok_handler
    = Auth.mkRun (RateLimit.async_return (ok_handler r)) [r]
    /\ r = Auth.attach_user alice_get_tasks alice_record.
Proof.
  destruct (withOptionalAuth_never_refuses example_secret find_alice t_use
              alice_get_tasks ok_handler) as (r & Hrun & Hattach & _).
  exists r. split; [exact Hrun|].
  apply (Hattach alice_access_token alice_claims alice_record).
  - exact alice_bearer.
  - exact alice_access_token_not_empty.
  - exact alice_access_token_verifies.
  - reflexivity.
Defined.

(** A request of Alice, as the gate passes it on, for a task she owns. *)
Definition alice_authenticated : Request :=
  mkRequest "PUT" "/api/tasks/42" ∅ (Some alice_record).

Lemma checkOwnership_calls_handler_only_for_owner_or_admin_witness :
  Auth.handler_calls
    (AuthHelpers.checkOwnership alice_authenticated ok_handler
       (JS.Normal (Some (JS.Num 7))))
  = [alice_authenticated]
  /\ alice_authenticated = alice_authenticated
  /\ exists u,
       user alice_authenticated = Some u
       /\ (user_role u = "Admin"
           \/ exists rid,
                JS.Normal (Some (JS.Num 7)) = JS.Normal (Some rid)
                /\ JS.truthy (Some rid) = true
                /\ user_id u = rid
                /\ AuthHelpers.isOwnerOrAdmin u rid = true).
Proof.
  apply (checkOwnership_calls_handler_only_for_owner_or_admin
           alice_authenticated ok_handler (JS.Normal (Some (JS.Num 7)))
           alice_authenticated).
  vm_compute. apply list_elem_of_here.
Defined.

Lemma checkOwnership_edges_witness :
  AuthHelpers.checkOwnership alice_authenticated ok_handler
    (JS.Normal (Some (JS.Num 0)))
  = Auth.mkRun (JS.Normal (Response.errorResponse
                             "Resource not found" 401 None)) [].
Proof.
  destruct (checkOwnership_edges alice_authenticated ok_handler
              (JS.Normal (Some (JS.Num 0)))) as (_ & _ & Hother).
  destruct (Hother alice_record) as [Hfalsy _].
  - reflexivity.
  - discriminate.
  - apply (Hfalsy (Some (JS.Num 0))); reflexivity.
Defined.

Lemma handleAsync_boundary_witness :
  let failing : Handler :=
    fun _ => JS.Rejects (JS.mkError "PrismaClientKnownRequestError"
                                    "connect ECONNREFUSED 10.0.0.5:5432") in
  exists message,
    ResponseBoundary.handleAsync (Some "production") failing
      alice_authenticated
    = JS.Normal (Response.errorResponse message 500 None)
    /\ message = "An unexpected error occurred".
Proof.
  intros failing.
  destruct (handleAsync_boundary (Some "production") failing
              alice_authenticated) as (_ & _ & Hfails).
  destruct (Hfails (JS.mkError "PrismaClientKnownRequestError"
                               "connect ECONNREFUSED 10.0.0.5:5432"))
    as (message & Hresult & Hprod & _).
  - right. reflexivity.
  - exists message. split; [exact Hresult|]. apply Hprod. reflexivity.
Defined.

(** A request without credentials from the key 10.0.0.1, and maps in
    which that key has used up three of three and one of three
    requests. *)
Definition anonymous : Request :=
  mkRequest "GET" "/api/tasks" {[ "x-forwarded-for" := "10.0.0.1" ]} None.


Definition one_used : gmap string RateLimit.Entry :=
  {[ "10.0.0.1" := {| RateLimit.count := 1;
                      RateLimit.resetTime := 1700000000000 |} ]}.


Lemma unauthenticated_request_spends_quota_witness :
  let result :=
    Routes.guarded example_secret 3 60000 None find_alice None
      1699999990000 1699999990500 1699999990700 anonymous ok_handler
      one_used in
  exists response,
    result.1 = JS.Normal response
    /\ status response = 401
    /\ body response
       = ErrorEnvelope false "No token provided. Please login." 401 None
    /\ Headers_get (response_headers response) "X-RateLimit-Limit"
       = Some (JS.toString 3)
    /\ Headers_get (response_headers response) "X-RateLimit-Remaining"
       = Some (JS.toString (3 - (1 + 1)))
    /\ result.2 !! RateLimit.getClientIP anonymous
       = Some {| RateLimit.count := 1 + 1;
                 RateLimit.resetTime := 1700000000000 |}.
Proof.
  apply (unauthenticated_request_spends_quota example_secret 3 60000
           1699999990000 1699999990500 1699999990700 None find_alice None
           anonymous ok_handler one_used
           {| RateLimit.count := 1;
              RateLimit.resetTime := 1700000000000 |}).
  - reflexivity.
  - reflexivity.
  - cbn. lia.
  - cbn. lia.
  - left. reflexivity.
Defined.


End MoreExamples.
